(** * Disaster-Response-Pipeline: the ETL script [data/process_data.py]

    A shallow embedding of the script's three stages (load, clean, save)
    and of the part of pandas they call, followed by the properties of
    the cleaned table, of the writer and of the command line.

    Layout of the file:
    - [py]: the Python string operations the script relies on;
    - [pd]: tables ([frame]) and the pandas operations, as pure functions;
    - the interpreter state (object store, files, databases, output) and
      the script's functions [load_data], [clean_data], [save_data], [main];
    - the theorems. *)

From Stdlib Require Import ZArith String Ascii.
From stdpp Require Import base list strings gmap pretty.

(** ** Exceptions and fallible results *)

Inductive exn :=
  | KeyError
  | AttributeError
  | IndexError
  | TypeError
  | ValueError
  | FileNotFoundError.

Inductive result (A : Type) :=
  | Ok (a : A)
  | Err (e : exn).
Arguments Ok {A} a.
Arguments Err {A} e.

#[global] Instance result_ret : MRet result := fun A a => Ok a.
#[global] Instance result_bind : MBind result := fun A B f m =>
  match m with Ok a => f a | Err e => Err e end.
#[global] Instance result_fmap : FMap result := fun A B f m =>
  match m with Ok a => Ok (f a) | Err e => Err e end.

Definition is_ok {A} (r : result A) : bool :=
  match r with Ok _ => true | Err _ => false end.

Definition raises {A} (r : result A) : Prop := ∃ e, r = Err e.

(** ** Python strings *)

Module py.

(** [s.split(sep)] for a one-character separator: [n] separators give
    [n + 1] pieces, the empty string gives one empty piece. *)
Fixpoint split (sep : ascii) (s : string) : list string :=
  match s with
  | EmptyString => [EmptyString]
  | String c s' =>
      if decide (c = sep) then EmptyString :: split sep s'
      else match split sep s' with
           | t :: ts => String c t :: ts
           | [] => [String c EmptyString]
           end
  end.

(** [s[:-2]]: all but the last two characters, empty when there are
    fewer than two. *)
Definition drop_last2 (s : string) : string :=
  String.substring 0 (String.length s - 2) s.

(** [skip n s] is [s[n:]]. *)
Fixpoint skip (n : nat) (s : string) : string :=
  match n, s with
  | O, _ => s
  | S n', String _ s' => skip n' s'
  | S _, EmptyString => EmptyString
  end.

(** [s.replace(old, new)] for a non-empty [old]: every occurrence of
    [old], found from left to right without overlap, becomes [new].
    [pending] counts the characters of a match still to be skipped. *)
Fixpoint replace_from (pending : nat) (old new s : string) : string :=
  match s with
  | EmptyString => EmptyString
  | String c s' =>
      match pending with
      | S p => replace_from p old new s'
      | O =>
          if String.prefix old s
          then new +:+ replace_from (String.length old - 1) old new s'
          else String c (replace_from 0 old new s')
      end
  end.

Definition replace (old new s : string) : string := replace_from 0 old new s.

End py.

(** ** Tables

    A table (pandas [DataFrame]) is kept row by row under its list of
    column labels.  A cell is what [read_csv] infers or what the cleaning
    produces: an integer, a floating-point number, a string or the
    missing value (pandas' [NaN]/[None]).  [VFloat m e] stands for the
    decimal [m * 10^e]; the rounding to 64 bits is not represented.

    The row index is left out: [merge] numbers the rows of its result
    [0 .. n-1], every later table of [clean_data] carries that same index,
    so that aligning two of them on it pairs their rows position by
    position, which is what [zip_with] does below. *)

Inductive cell :=
  | VInt (z : Z)
  | VFloat (m e : Z)
  | VStr (s : string)
  | VNaN.

Inductive label :=
  | LInt (n : nat)
  | LStr (s : string).

#[global] Instance cell_eq_dec : EqDecision cell.
Proof. solve_decision. Defined.
#[global] Instance label_eq_dec : EqDecision label.
Proof. solve_decision. Defined.

Record frame := Frame {
  columns : list label;
  rows : list (list cell)
}.

#[global] Instance frame_eq_dec : EqDecision frame.
Proof. solve_decision. Defined.

(** Every row has one cell per column. *)
Definition wf (f : frame) : Prop :=
  Forall (λ r, length r = length (columns f)) (rows f).

(** What [f[label]] selects: a column, or a sub-table when several
    columns carry the label. *)
Inductive selection :=
  | Series (s : list cell)
  | DataFrame (f : frame).

(** A parsed numeric literal, and the reading of a string as a number by
    [pandas.to_numeric].  Which strings pandas accepts (signs, exponents,
    blanks, [inf], ...) is decided inside the library; the cleaning is
    stated for any such reading, and [decimal_text] below is the one the
    examples run with. *)
Inductive number :=
  | NInt (z : Z)
  | NFloat (m e : Z)
  | NNaN.

Class NumericText := numeric_of_text : string → option number.

Definition cell_of_number (n : number) : cell :=
  match n with
  | NInt z => VInt z
  | NFloat m e => VFloat m e
  | NNaN => VNaN
  end.

Module pd.

Definition is_str (v : cell) : bool :=
  match v with VStr _ => true | _ => false end.

(** The cell of row [r] under the first column labelled [l]; a row too
    short to have one reads as missing. *)
Fixpoint field (l : label) (cols : list label) (r : list cell) : cell :=
  match cols, r with
  | c :: cols', x :: r' => if decide (c = l) then x else field l cols' r'
  | _, _ => VNaN
  end.

(** The cells of a row (or the labels themselves) under the columns that
    [keep] retains. *)
Fixpoint select_cells {A} (keep : label → bool) (cols : list label)
    (r : list A) : list A :=
  match cols, r with
  | c :: cols', x :: r' =>
      if keep c then x :: select_cells keep cols' r'
      else select_cells keep cols' r'
  | _, _ => []
  end.

Definition select (keep : label → bool) (f : frame) : frame :=
  {| columns := select_cells keep (columns f) (columns f);
     rows := select_cells keep (columns f) <$> rows f |}.

(** [f[l]]: [KeyError] without a column [l], the column when there is
    one, the sub-table of the columns [l] when there are several. *)
Definition getitem (f : frame) (l : label) : result selection :=
  match filter (λ c, c = l) (columns f) with
  | [] => Err KeyError
  | [_] => Ok (Series (field l (columns f) <$> rows f))
  | _ => Ok (DataFrame (select (λ c, bool_decide (c = l)) f))
  end.

(** [f[l] = s] with [s] on the index of [f]: an existing label has its
    cells replaced where it stands, a new label is added as last column. *)
Definition set_cells (cols : list label) (l : label) (r : list cell)
    (v : cell) : list cell :=
  zip_with (λ c x, if decide (c = l) then v else x) cols r.

Definition setitem (f : frame) (l : label) (s : list cell) : frame :=
  if decide (l ∈ columns f)
  then {| columns := columns f;
          rows := zip_with (set_cells (columns f) l) (rows f) s |}
  else {| columns := columns f ++ [l];
          rows := zip_with (λ r v, r ++ [v]) (rows f) s |}.

(** [f[keys] = value] for a table [value]: pandas checks the two widths
    and assigns column by column, [f[k1] = value[k2]] over
    [zip(keys, value.columns)]. *)
Fixpoint setitem_pairs (f : frame) (value : frame)
    (pairs : list (label * label)) : result frame :=
  match pairs with
  | [] => Ok f
  | (k1, k2) :: rest =>
      x ← getitem value k2;
      match x with
      | Series s => setitem_pairs (setitem f k1 s) value rest
      | DataFrame _ => Err ValueError
      end
  end.

Definition setitem_frame (f : frame) (keys : list label) (value : frame)
    : result frame :=
  if decide (length keys = length (columns value))
  then setitem_pairs f value (zip keys (columns value))
  else Err ValueError.

(** [f.columns = names] *)
Definition set_columns (f : frame) (names : list label) : result frame :=
  if decide (length names = length (columns f))
  then Ok {| columns := names; rows := rows f |}
  else Err ValueError.

(** [f.drop(columns=ls)]: every label must exist; all the columns that
    carry one of them go. *)
Definition drop_columns (f : frame) (ls : list label) : result frame :=
  if decide (Forall (λ l, l ∈ columns f) ls)
  then Ok (select (λ c, bool_decide (c ∉ ls)) f)
  else Err KeyError.

(** [f.iloc[0]] *)
Definition iloc0 (f : frame) : result (list cell) :=
  match rows f with
  | r :: _ => Ok r
  | [] => Err IndexError
  end.

(** [x.str]: the string accessor exists on a column of strings (possibly
    with other values among them, which the string methods turn into
    [NaN]); a column that holds values but no string has a numeric dtype
    and no such accessor, and neither has a table.  The dtype is read off
    the values: a row of missing values only, which pandas may keep as
    objects and refuse one step later, is refused here; either way the
    call ends in an exception, of a class this model does not tell apart. *)
Definition str (x : selection) : result (list cell) :=
  match x with
  | Series s =>
      if bool_decide (s = []) || existsb is_str s then Ok s
      else Err AttributeError
  | DataFrame _ => Err AttributeError
  end.

(** [s.str.split(sep)], one value *)
Definition str_split (sep : ascii) (v : cell) : option (list string) :=
  match v with
  | VStr s => Some (py.split sep s)
  | _ => None
  end.

(** [s.str.split(sep, expand=True)]: one column per piece, labelled
    [0 .. width-1]; rows with fewer pieces, and rows that are not strings,
    are filled with missing values. *)
Definition expand_row (width : nat) (o : option (list string)) : list cell :=
  match o with
  | Some ts => (VStr <$> ts) ++ replicate (width - length ts) VNaN
  | None => replicate width VNaN
  end.

Definition split_width (sep : ascii) (s : list cell) : nat :=
  max_list ((λ v, from_option length 1 (str_split sep v)) <$> s).

Definition str_split_expand (sep : ascii) (s : list cell) : frame :=
  let width := split_width sep s in
  {| columns := LInt <$> seq 0 width;
     rows := (λ v, expand_row width (str_split sep v)) <$> s |}.

(** [s.str.replace(old, new)] with a literal pattern *)
Definition str_replace (old new : string) (s : list cell) : list cell :=
  (λ v, match v with VStr x => VStr (py.replace old new x) | _ => VNaN end)
    <$> s.

(** [pd.to_numeric(x)]: each string is read as a number, a string that is
    not one raises [ValueError]; values that are not strings stay.  When a
    floating-point or missing value is among the results the column is a
    float column and its integers are floats too. *)
Definition parse_cell `{NumericText} (v : cell) : result cell :=
  match v with
  | VStr s =>
      match numeric_of_text s with
      | Some n => Ok (cell_of_number n)
      | None => Err ValueError
      end
  | _ => Ok v
  end.

Definition is_floating (v : cell) : bool :=
  match v with VFloat _ _ | VNaN => true | _ => false end.

Definition as_float (v : cell) : cell :=
  match v with VInt z => VFloat z 0 | _ => v end.

Definition to_numeric `{NumericText} (x : selection) : result (list cell) :=
  match x with
  | Series s =>
      vals ← mapM parse_cell s;
      Ok (if existsb is_floating vals then as_float <$> vals else vals)
  | DataFrame _ => Err TypeError
  end.

(** [pd.merge(left, right, on=key)]: the inner join.  The key column of
    [right] is dropped, the other labels present on both sides get the
    suffixes [_x] and [_y], and each row of [left], in order, is paired
    with the rows of [right] that carry its key.  Keys are compared as
    cells, which is how pandas compares two key columns of one dtype; key
    columns of different dtypes (integers against floats or strings) are
    outside this model. *)
Definition add_suffix (suf : string) (l : label) : label :=
  match l with
  | LStr s => LStr (s +:+ suf)
  | LInt n => LStr (pretty n +:+ suf)
  end.

Definition merge (left right : frame) (on : label) : result frame :=
  if decide (on ∈ columns left ∧ on ∈ columns right) then
    let other := λ c, bool_decide (c ≠ on) in
    let rcols := select_cells other (columns right) (columns right) in
    let rename := λ suf c,
      if bool_decide (c ∈ columns left ∧ c ∈ rcols)
      then add_suffix suf c else c in
    let key_l := field on (columns left) in
    let key_r := field on (columns right) in
    Ok {| columns := (rename "_x" <$> columns left)
                     ++ (rename "_y" <$> rcols);
          rows :=
            lr ← rows left;
            rr ← filter (λ rr, key_r rr = key_l lr) (rows right);
            [lr ++ select_cells other (columns right) rr] |}
  else Err KeyError.

(** [f.drop_duplicates()]: a row equal in every column to an earlier row
    goes; the first of each kind stays, in place. *)
Fixpoint unique_rows (seen : list (list cell)) (rs : list (list cell))
    : list (list cell) :=
  match rs with
  | [] => []
  | r :: rs' =>
      if decide (r ∈ seen) then unique_rows seen rs'
      else r :: unique_rows (r :: seen) rs'
  end.

Definition drop_duplicates (f : frame) : frame :=
  {| columns := columns f; rows := unique_rows [] (rows f) |}.

(** [len(f)] *)
Definition len (f : frame) : nat := length (rows f).

(** [f.to_sql(name, con, index=False, if_exists=mode)] on the tables of
    one database.  What the database engine itself may refuse (a file it
    cannot open, column names it does not accept) is not represented. *)
Inductive if_exists := IfExistsFail | IfExistsReplace | IfExistsAppend.

Definition to_sql (f : frame) (name : string) (mode : if_exists)
    (db : gmap string frame) : result (gmap string frame) :=
  match db !! name with
  | None => Ok (<[name := f]> db)
  | Some old =>
      match mode with
      | IfExistsFail => Err ValueError
      | IfExistsReplace => Ok (<[name := f]> db)
      | IfExistsAppend =>
          Ok (<[name := {| columns := columns old;
                           rows := rows old ++ rows f |}]> db)
      end
  end.

End pd.

(** ** The numeric literals of the examples

    Signed integers and signed decimals with digits on both sides of the
    point; the empty string reads as the missing value, as it does for
    [pandas.to_numeric].  Anything else is not read. *)

Definition digit (c : ascii) : option Z :=
  let n := nat_of_ascii c in
  if decide (48 ≤ n ≤ 57) then Some (Z.of_nat (n - 48)) else None.

Fixpoint digits (acc : Z) (s : string) : option Z :=
  match s with
  | EmptyString => Some acc
  | String c s' => d ← digit c; digits (10 * acc + d) s'
  end.

Definition unsigned_int (s : string) : option Z :=
  if decide (s = EmptyString) then None else digits 0 s.

(** The fraction digits without their trailing zeros. *)
Fixpoint rstrip_zeros (s : string) : string :=
  match s with
  | EmptyString => EmptyString
  | String c s' =>
      let t := rstrip_zeros s' in
      if decide (c = "0"%char ∧ t = EmptyString) then EmptyString
      else String c t
  end.

Definition unsigned_number (s : string) : option number :=
  match py.split "." s with
  | [i] => NInt <$> unsigned_int i
  | [i; f] =>
      iv ← unsigned_int i;
      _ ← unsigned_int f;
      let f' := rstrip_zeros f in
      fv ← digits 0 f';
      let k := Z.of_nat (String.length f') in
      Some (NFloat (iv * 10 ^ k + fv) (- k))
  | _ => None
  end.

Definition negate (n : number) : number :=
  match n with
  | NInt z => NInt (- z)
  | NFloat m e => NFloat (- m) e
  | NNaN => NNaN
  end.

Definition decimal_text : NumericText := λ s,
  match s with
  | EmptyString => Some NNaN
  | String c s' =>
      if decide (c = "-"%char) then negate <$> unsigned_number s'
      else if decide (c = "+"%char) then unsigned_number s'
      else unsigned_number s
  end.

(** ** The interpreter state

    Tables are Python objects: a variable holds a reference ([loc]) into
    the [store], and the in-place operations of the script write through
    it.  Outside the interpreter are the CSV files (by path, already as
    the table [read_csv] makes of them), the databases (by engine URL,
    each a map from table name to table) and what the run did to them,
    in order, in [trace]. *)

Definition loc := nat.

Inductive event :=
  | Printed (s : string)
  | ReadCsv (path : string)
  | WroteSql (url table : string).

Record state := State {
  store : list frame;
  files : gmap string frame;
  dbs : gmap string (gmap string frame);
  sys_argv : list string;
  trace : list event
}.

Definition with_store (st : state) (s : list frame) : state :=
  {| store := s; files := files st; dbs := dbs st;
     sys_argv := sys_argv st; trace := trace st |}.

Definition with_dbs (st : state) (d : gmap string (gmap string frame))
    : state :=
  {| store := store st; files := files st; dbs := d;
     sys_argv := sys_argv st; trace := trace st |}.

Definition with_trace (st : state) (t : list event) : state :=
  {| store := store st; files := files st; dbs := dbs st;
     sys_argv := sys_argv st; trace := t |}.

(** A statement either returns or raises, and leaves a state. *)
Definition M (A : Type) : Type := state → result A * state.

#[global] Instance M_ret : MRet M := λ A a st, (Ok a, st).
#[global] Instance M_bind : MBind M := λ A B f m st,
  match m st with
  | (Ok a, st') => f a st'
  | (Err e, st') => (Err e, st')
  end.

Definition lift {A} (r : result A) : M A := λ st, (r, st).

Definition emit (ev : event) : M unit := λ st,
  (Ok tt, with_trace st (trace st ++ [ev])).

Definition print (s : string) : M unit := emit (Printed s).

Definition new_frame (f : frame) : M loc := λ st,
  (Ok (length (store st)), with_store st (store st ++ [f])).

Definition get_frame (l : loc) : M frame := λ st,
  match store st !! l with
  | Some f => (Ok f, st)
  | None => (Err TypeError, st)
  end.

Definition put_frame (l : loc) (f : frame) : M unit := λ st,
  (Ok tt, with_store st (<[l := f]> (store st))).

(** [for x in xs: body] *)
Fixpoint for_each {A} (xs : list A) (body : A → M unit) : M unit :=
  match xs with
  | [] => mret tt
  | x :: xs' => _ ← body x; for_each xs' body
  end.

(** The pandas operations on references. *)
Definition merge (left right : loc) (on : label) : M loc :=
  l ← get_frame left; r ← get_frame right;
  f ← lift (pd.merge l r on);
  new_frame f.

Definition getitem (df : loc) (l : label) : M selection :=
  f ← get_frame df; lift (pd.getitem f l).

Definition setitem (df : loc) (l : label) (s : list cell) : M unit :=
  f ← get_frame df; put_frame df (pd.setitem f l s).

Definition setitem_frame (df : loc) (keys : list label) (value : loc)
    : M unit :=
  f ← get_frame df; v ← get_frame value;
  f' ← lift (pd.setitem_frame f keys v);
  put_frame df f'.

Definition get_columns (df : loc) : M (list label) :=
  f ← get_frame df; mret (columns f).

Definition set_columns (df : loc) (names : list label) : M unit :=
  f ← get_frame df; f' ← lift (pd.set_columns f names); put_frame df f'.

Definition iloc0 (df : loc) : M (list cell) :=
  f ← get_frame df; lift (pd.iloc0 f).

Definition drop_columns_inplace (df : loc) (ls : list label) : M unit :=
  f ← get_frame df; f' ← lift (pd.drop_columns f ls); put_frame df f'.

Definition drop_duplicates_inplace (df : loc) : M unit :=
  f ← get_frame df; put_frame df (pd.drop_duplicates f).

(** [pd.read_csv(path)]: a new table with the content of the file. *)
Definition read_csv (path : string) : M loc := λ st,
  let st1 := with_trace st (trace st ++ [ReadCsv path]) in
  match files st !! path with
  | Some f => new_frame f st1
  | None => (Err FileNotFoundError, st1)
  end.

(** [create_engine(url)]: the handle of the database at [url]; nothing
    is opened before the first statement runs. *)
Definition create_engine (url : string) : string := url.

(** [df.to_sql(name, engine, index=False, if_exists=mode)] *)
Definition to_sql (df : loc) (name engine : string) (mode : pd.if_exists)
    : M unit :=
  f ← get_frame df;
  (λ st,
    let st1 := with_trace st (trace st ++ [WroteSql engine name]) in
    match pd.to_sql f name mode (dbs st !!! engine) with
    | Ok db => (Ok tt, with_dbs st1 (<[engine := db]> (dbs st)))
    | Err e => (Err e, st1)
    end) : M unit.

(** [sys.argv] *)
Definition argv : M (list string) := λ st, (Ok (sys_argv st), st).

(** ** The script *)

(** [cat[0][:-2]] for one element of [row.str.split(";")] *)
Definition category_name (cat : option (list string)) : result label :=
  match cat with
  | Some (c0 :: _) => Ok (LStr (py.drop_last2 c0))
  | Some [] => Err IndexError
  | None => Err TypeError
  end.

(** [column + "-"] *)
Definition add_dash (column : label) : result string :=
  match column with
  | LStr c => Ok (c +:+ "-")
  | LInt _ => Err TypeError
  end.

Definition removing_message (n : nat) : string :=
  "Removing " +:+ pretty n +:+ " duplicates in the dataframe.".

Definition load_data (messages_filepath categories_filepath : string)
    : M (loc * loc) :=
  messages ← read_csv messages_filepath;
  categories ← read_csv categories_filepath;
  mret (messages, categories).

(** The body of [for column in categories:] *)
Definition convert_in_place `{NumericText} (categories : loc)
    (column : label) : M unit :=
  (* categories[column] = categories[column].str.replace(column + '-', '') *)
  x ← getitem categories column;
  s ← lift (pd.str x);
  pat ← lift (add_dash column);
  _ ← setitem categories column (pd.str_replace pat EmptyString s);
  (* categories[column] = pd.to_numeric(categories[column]) *)
  x ← getitem categories column;
  s ← lift (pd.to_numeric x);
  setitem categories column s.

Definition clean_data `{NumericText} (messages categories : loc) : M loc :=
  (* df = pd.merge(messages, categories, on="id") *)
  df ← merge messages categories (LStr "id");
  (* categories = df['categories'].str.split(";", expand=True) *)
  x ← getitem df (LStr "categories");
  s ← lift (pd.str x);
  categories ← new_frame (pd.str_split_expand ";" s);
  (* row = categories.iloc[0] *)
  row ← iloc0 categories;
  (* category_colnames = row.str.split(";") *)
  s ← lift (pd.str (Series row));
  let category_colnames := pd.str_split ";" <$> s in
  (* for cat in category_colnames: new_cat_list.append(cat[0][:-2]) *)
  new_cat_list ← lift (mapM category_name category_colnames);
  (* categories.columns = new_cat_list *)
  _ ← set_columns categories new_cat_list;
  (* for column in categories: *)
  cols ← get_columns categories;
  _ ← for_each cols (convert_in_place categories);
  (* df.drop(columns=["categories"], inplace=True) *)
  _ ← drop_columns_inplace df [LStr "categories"];
  (* df[categories.columns] = categories *)
  keys ← get_columns categories;
  _ ← setitem_frame df keys categories;
  (* print("Removing {} duplicates ...".format(len(df) - len(df.drop_duplicates()))) *)
  f ← get_frame df;
  _ ← print (removing_message (pd.len f - pd.len (pd.drop_duplicates f)));
  (* df.drop_duplicates(inplace=True) *)
  _ ← drop_duplicates_inplace df;
  mret df.

Definition table_name : string := "DISASTER_DATA".

Definition save_data (df : loc) (database_filename : string)
    (should_replace : bool) : M unit :=
  (* engine = create_engine("sqlite:///" + database_filename) *)
  let engine := create_engine ("sqlite:///" +:+ database_filename) in
  (* df.to_sql('DISASTER_DATA', engine, index=False, if_exists="replace") *)
  _ ← to_sql df table_name engine pd.IfExistsReplace;
  print ("database: " +:+ database_filename +:+ " - tablename "
         +:+ table_name).

Definition usage : string :=
  "Please provide the filepaths of the messages and categories "
  +:+ "datasets as the first and second argument respectively, as "
  +:+ "well as the filepath of the database to save the cleaned data "
  +:+ "to as the third argument. " +:+ String "010" (String "010"
  ("Example: python process_data.py "
  +:+ "disaster_messages.csv disaster_categories.csv "
  +:+ "DisasterResponse.db")).

Definition main `{NumericText} : M unit :=
  args ← argv;
  if decide (length args = 4) then
    (* messages_filepath, categories_filepath, database_filepath = sys.argv[1:] *)
    match tail args with
    | [messages_filepath; categories_filepath; database_filepath] =>
        _ ← print ("Loading data..." +:+ String "010" ("    MESSAGES: "
                   +:+ messages_filepath +:+ String "010" ("    CATEGORIES: "
                   +:+ categories_filepath)));
        '(messages, categories) ← load_data messages_filepath
                                            categories_filepath;
        _ ← print "Cleaning data...";
        df ← clean_data messages categories;
        _ ← print ("Saving data..." +:+ String "010" ("    DATABASE: "
                   +:+ database_filepath));
        _ ← save_data df database_filepath true;
        print "Cleaned data saved to database!"
    | _ => lift (Err ValueError)
    end
  else print usage.

(** ** The cleaning as a function of the two tables

    What [clean_data] computes from the tables behind its two references,
    stage by stage; [clean_data_returns] and [clean_data_raises] below
    show that running the script does exactly this. *)

(** [df['categories'].str.split(";", expand=True)] *)
Definition split_categories (df : frame) : result frame :=
  x ← pd.getitem df (LStr "categories");
  s ← pd.str x;
  Ok (pd.str_split_expand ";" s).

(** The names read off the first row of the split table. *)
Definition derived_names (categories : frame) : result (list label) :=
  row ← pd.iloc0 categories;
  s ← pd.str (Series row);
  mapM category_name (pd.str_split ";" <$> s).

(** One round of the conversion loop. *)
Definition convert_column `{NumericText} (f : frame) (column : label)
    : result frame :=
  x ← pd.getitem f column;
  s ← pd.str x;
  pat ← add_dash column;
  let f1 := pd.setitem f column (pd.str_replace pat EmptyString s) in
  x ← pd.getitem f1 column;
  s ← pd.to_numeric x;
  Ok (pd.setitem f1 column s).

Fixpoint convert_columns `{NumericText} (f : frame) (cols : list label)
    : result frame :=
  match cols with
  | [] => Ok f
  | column :: cols' => f' ← convert_column f column; convert_columns f' cols'
  end.

(** The numeric category table: split, named, converted. *)
Definition category_table `{NumericText} (df : frame) : result frame :=
  categories ← split_categories df;
  new_cat_list ← derived_names categories;
  categories ← pd.set_columns categories new_cat_list;
  convert_columns categories (columns categories).

(** The merged table with the category columns in place of the raw one,
    before the duplicates go, and the category table next to it. *)
Definition expanded `{NumericText} (messages categories : frame)
    : result (frame * frame) :=
  df ← pd.merge messages categories (LStr "id");
  categories ← category_table df;
  df ← pd.drop_columns df [LStr "categories"];
  df ← pd.setitem_frame df (columns categories) categories;
  Ok (df, categories).

Definition cleaned `{NumericText} (messages categories : frame)
    : result frame :=
  '(df, _) ← expanded messages categories;
  Ok (pd.drop_duplicates df).

(** The number [clean_data] prints. *)
Definition duplicates (df : frame) : nat :=
  pd.len df - pd.len (pd.drop_duplicates df).

(** ** Vocabulary of the statements *)

(** The cells under the first column labelled [l], top to bottom. *)
Definition column (f : frame) (l : label) : list cell :=
  pd.field l (columns f) <$> rows f.

Definition identifiers (f : frame) : list cell := column f (LStr "id").

(** The table behind the reference a call returned, if it returned. *)
Definition returned (r : result loc * state) : option frame :=
  match r with
  | (Ok l, st) => store st !! l
  | (Err _, _) => None
  end.

(** The category names [clean_data] derives for two tables. *)
Definition category_names (messages categories : frame)
    : result (list label) :=
  df ← pd.merge messages categories (LStr "id");
  categories ← split_categories df;
  derived_names categories.

(** The categories strings of the merged table, first row first. *)
Definition merged_categories (messages categories : frame)
    : result (list cell) :=
  df ← pd.merge messages categories (LStr "id");
  x ← pd.getitem df (LStr "categories");
  pd.str x.

(** The merged table without its raw categories column. *)
Definition without_raw (df : frame) : frame :=
  pd.select (λ c, bool_decide (c ∉ [LStr "categories"])) df.

(** ** Tables of the scenarios *)

Definition fresh_state (objects : list frame) : state :=
  {| store := objects; files := ∅; dbs := ∅; sys_argv := []; trace := [] |}.

Definition flood_messages : frame :=
  {| columns := [LStr "id"; LStr "message"];
     rows := [[VInt 1; VStr "flood here"]] |}.

Definition flood_categories : frame :=
  {| columns := [LStr "id"; LStr "categories"];
     rows := [[VInt 1; VStr "related-1;offer-0"]] |}.

Definition flood_cleaned : frame :=
  {| columns := [LStr "id"; LStr "message"; LStr "related"; LStr "offer"];
     rows := [[VInt 1; VStr "flood here"; VInt 1; VInt 0]] |}.

Definition id_categories : frame :=
  {| columns := [LStr "id"; LStr "categories"];
     rows := [[VInt 1; VStr "id-7"]] |}.

Definition twin_messages : frame :=
  {| columns := [LStr "id"; LStr "message"];
     rows := [[VInt 1; VStr "flood here"]; [VInt 1; VStr "flood there"]] |}.

Definition twin_cleaned : frame :=
  {| columns := [LStr "id"; LStr "message"; LStr "related"];
     rows := [[VInt 1; VStr "flood here"; VInt 1];
              [VInt 1; VStr "flood there"; VInt 1]] |}.

Definition related_categories : frame :=
  {| columns := [LStr "id"; LStr "categories"];
     rows := [[VInt 1; VStr "related-1"]] |}.

Definition two_messages : frame :=
  {| columns := [LStr "id"; LStr "message"];
     rows := [[VInt 1; VStr "flood here"]; [VInt 2; VStr "dry here"]] |}.

Definition decimal_categories : frame :=
  {| columns := [LStr "id"; LStr "categories"];
     rows := [[VInt 1; VStr "related-1"]; [VInt 2; VStr "related-1.5"]] |}.

Definition decimal_cleaned : frame :=
  {| columns := [LStr "id"; LStr "message"; LStr "related"];
     rows := [[VInt 1; VStr "flood here"; VFloat 1 0];
              [VInt 2; VStr "dry here"; VFloat 15 (-1)]] |}.

Definition unreadable_categories : frame :=
  {| columns := [LStr "id"; LStr "categories"];
     rows := [[VInt 1; VStr "related-1"]; [VInt 2; VStr "related-x"]] |}.

(** Python's [int(s)] on a signed string of digits. *)
Definition integer_text (s : string) : option Z :=
  match s with
  | EmptyString => None
  | String c s' =>
      if decide (c = "-"%char) then Z.opp <$> unsigned_int s'
      else if decide (c = "+"%char) then unsigned_int s'
      else unsigned_int s
  end.

(** A run that finds an older table in the database. *)
Definition stale_table : frame :=
  {| columns := [LStr "id"; LStr "message"];
     rows := [[VInt 9; VStr "old"]] |}.

Definition stale_state : state :=
  {| store := [flood_cleaned];
     files := ∅;
     dbs := {[ "sqlite:///out.db" := {[ table_name := stale_table ]} ]};
     sys_argv := [];
     trace := [] |}.

(** A command line with two arguments after the program name. *)
Definition short_command_line : state :=
  {| store := []; files := ∅; dbs := ∅;
     sys_argv := ["process_data.py"; "messages.csv"; "categories.csv"];
     trace := [] |}.

(** ** Vocabulary of the further statements *)

(** The [j]-th piece of a categories value; missing when the value is no
    string or has fewer pieces. *)
Definition piece (j : nat) (v : cell) : cell :=
  match pd.str_split ";" v with
  | Some ts => from_option VStr VNaN (ts !! j)
  | None => VNaN
  end.

(** [x] stands at place [i] of [l] and at no earlier place. *)
Definition first_occurrence {A} (l : list A) (i : nat) (x : A) : Prop :=
  l !! i = Some x ∧ ∀ j, j < i → l !! j ≠ Some x.

(** A statement that leaves the files and the databases as they are,
    whether it returns or raises. *)
Definition quiet {A} (m : M A) : Prop :=
  ∀ st, files (m st).2 = files st ∧ dbs (m st).2 = dbs st.

Definition empty_messages : frame :=
  {| columns := [LStr "id"; LStr "message"]; rows := [] |}.

Definition keyless_messages : frame :=
  {| columns := [LStr "message"]; rows := [[VStr "flood here"]] |}.

Definition unmatched_categories : frame :=
  {| columns := [LStr "id"; LStr "categories"];
     rows := [[VInt 2; VStr "related-1;offer-0"]] |}.

Definition repeated_categories : frame :=
  {| columns := [LStr "id"; LStr "categories"];
     rows := [[VInt 1; VStr "related-1;related-0"]] |}.

Definition ragged_categories : frame :=
  {| columns := [LStr "id"; LStr "categories"];
     rows := [[VInt 1; VStr "related-1"];
              [VInt 2; VStr "related-1;offer-0"]] |}.

Definition missing_first_categories : frame :=
  {| columns := [LStr "id"; LStr "categories"];
     rows := [[VInt 1; VNaN]; [VInt 2; VStr "related-1"]] |}.

Definition repeated_messages : frame :=
  {| columns := [LStr "id"; LStr "message"];
     rows := [[VInt 1; VStr "flood here"]; [VInt 1; VStr "flood here"]] |}.

(** A command line with the three paths, the two files in place. *)
Definition full_command_line : state :=
  {| store := [];
     files := {[ "messages.csv" := flood_messages;
                 "categories.csv" := flood_categories ]};
     dbs := ∅;
     sys_argv := ["process_data.py"; "messages.csv"; "categories.csv";
                  "out.db"];
     trace := [] |}.

(** The same command line when the categories cannot be cleaned. *)
Definition unreadable_command_line : state :=
  {| store := [];
     files := {[ "messages.csv" := two_messages;
                 "categories.csv" := unreadable_categories ]};
     dbs := {[ "sqlite:///out.db" := {[ table_name := stale_table ]} ]};
     sys_argv := ["process_data.py"; "messages.csv"; "categories.csv";
                  "out.db"];
     trace := [] |}.

(** * Properties *)

(** ** Rows and columns *)

Lemma field_absent l cols r : l ∉ cols → pd.field l cols r = VNaN.
Proof.
  revert r. induction cols as [|c cols IH]; intros [|x r] Hl; cbn; try done.
  apply not_elem_of_cons in Hl as [? ?]. rewrite decide_False by done. auto.
Qed.

Lemma field_app_l l cols cols' r r' :
  l ∈ cols → length r = length cols →
  pd.field l (cols ++ cols') (r ++ r') = pd.field l cols r.
Proof.
  revert r. induction cols as [|c cols IH]; intros [|x r] Hl Hlen;
    cbn in *; try done.
  - by apply elem_of_nil in Hl.
  - case_decide; [done|]. apply IH; [|lia].
    apply elem_of_cons in Hl as [?|?]; congruence.
Qed.

Lemma field_app_r l cols cols' r r' :
  l ∉ cols → length r = length cols →
  pd.field l (cols ++ cols') (r ++ r') = pd.field l cols' r'.
Proof.
  revert r. induction cols as [|c cols IH]; intros [|x r] Hl Hlen;
    cbn in *; try done.
  apply not_elem_of_cons in Hl as [? ?]. rewrite decide_False by done.
  apply IH; [done|lia].
Qed.

(** Relabelling that neither creates nor hides [l] does not move it. *)
Lemma field_relabel (g : label → label) l cols r :
  (∀ c, c ∈ cols → g c = l ↔ c = l) →
  pd.field l (g <$> cols) r = pd.field l cols r.
Proof.
  revert r. induction cols as [|c cols IH]; intros [|x r] Hg; cbn; try done.
  assert (g c = l ↔ c = l) as Hc by (apply Hg; left).
  rewrite IH by (intros; apply Hg; by right).
  repeat case_decide; naive_solver.
Qed.

Lemma field_lookup l cols r j x :
  NoDup cols → cols !! j = Some l → r !! j = Some x → pd.field l cols r = x.
Proof.
  revert r j. induction cols as [|c cols IH]; intros [|y r] [|j] Hnd Hc Hr;
    simplify_eq/=.
  - by rewrite decide_True.
  - inversion_clear Hnd as [|?? Hnot ?].
    rewrite decide_False; [by eapply IH|].
    intros ->. apply Hnot. by eapply list_elem_of_lookup_2.
Qed.

Lemma select_cells_length {A B} keep cols (r : list A) (r' : list B) :
  length r = length r' →
  length (pd.select_cells keep cols r) = length (pd.select_cells keep cols r').
Proof.
  revert r r'. induction cols as [|c cols IH]; intros [|x r] [|y r'] Hlen;
    cbn in *; try done.
  destruct (keep c); cbn; auto.
Qed.

Lemma select_cells_labels keep cols :
  pd.select_cells keep cols cols = filter (λ c, keep c = true) cols.
Proof.
  induction cols as [|c cols IH]; [done|].
  rewrite filter_cons. cbn [pd.select_cells]. rewrite IH.
  destruct (keep c); by case_decide.
Qed.

Lemma field_select keep l cols r :
  keep l = true →
  pd.field l (pd.select_cells keep cols cols) (pd.select_cells keep cols r)
  = pd.field l cols r.
Proof.
  intros Hk. revert r. induction cols as [|c cols IH]; intros [|x r];
    cbn [pd.select_cells pd.field]; try done.
  - by destruct (if keep c then _ else _).
  - destruct (keep c) eqn:E; cbn [pd.field].
    + by rewrite IH.
    + rewrite decide_False by congruence. apply IH.
Qed.

Lemma field_set_cells_ne l l' cols r v :
  l ≠ l' → pd.field l cols (pd.set_cells cols l' r v) = pd.field l cols r.
Proof.
  intros Hne. unfold pd.set_cells.
  revert r. induction cols as [|c cols IH]; intros [|x r]; cbn; try done.
  rewrite IH. repeat case_decide; congruence.
Qed.

Lemma field_set_cells_eq l cols r v :
  l ∈ cols → length r = length cols →
  pd.field l cols (pd.set_cells cols l r v) = v.
Proof.
  unfold pd.set_cells.
  revert r. induction cols as [|c cols IH]; intros [|x r] Hl Hlen;
    cbn in *; try done.
  - by apply elem_of_nil in Hl.
  - case_decide; [done|]. apply IH; [|lia].
    apply elem_of_cons in Hl as [?|?]; congruence.
Qed.

Lemma set_cells_length l cols r v :
  length r = length cols → length (pd.set_cells cols l r v) = length cols.
Proof. intros Hlen. unfold pd.set_cells. rewrite length_zip_with. lia. Qed.

(** The monadic map over a list, for fallible functions. *)
Lemma mapM_Ok {A B} (f : A → result B) xs ys :
  mapM f xs = Ok ys → Forall2 (λ x y, f x = Ok y) xs ys.
Proof.
  revert ys. induction xs as [|x xs IH]; intros ys; cbn.
  - intros [= <-]. constructor.
  - destruct (f x) as [y|] eqn:Ey; cbn; [|done].
    destruct (mapM f xs) as [ys'|]; cbn; [|done].
    intros [= <-]. constructor; auto.
Qed.

Lemma mapM_Err_elem {A B} (f : A → result B) xs x e :
  x ∈ xs → f x = Err e → ∃ e', mapM f xs = Err e'.
Proof.
  induction xs as [|y xs IH]; intros Hx Hf; [by apply elem_of_nil in Hx|].
  cbn. destruct (f y) as [b|e0] eqn:Ey; cbn; [|by eexists].
  apply elem_of_cons in Hx as [->|Hx]; [congruence|].
  destruct (IH Hx Hf) as [e' ->]. by eexists.
Qed.

Lemma fmap_zip_with_keep {A B C} (h : A → C) (k : A → C) (g : A → B → A)
    (xs : list A) (ys : list B) :
  (∀ x y, x ∈ xs → h (g x y) = k x) → length ys = length xs →
  h <$> zip_with g xs ys = k <$> xs.
Proof.
  revert ys. induction xs as [|x xs IH]; intros [|y ys] Hg Hlen;
    simplify_eq/=; [done|].
  f_equal; [apply Hg; left|apply IH; [|done]]. intros; apply Hg. by right.
Qed.

Lemma fmap_zip_with_new {A B} (h : A → B) (g : A → B → A)
    (xs : list A) (ys : list B) :
  (∀ x y, x ∈ xs → h (g x y) = y) → length ys = length xs →
  h <$> zip_with g xs ys = ys.
Proof.
  revert ys. induction xs as [|x xs IH]; intros [|y ys] Hg Hlen;
    simplify_eq/=; [done|].
  f_equal; [apply Hg; left|apply IH; [|done]]. intros; apply Hg. by right.
Qed.

Lemma Forall_zip_with_l {A B} (P Q : A → Prop) (g : A → B → A)
    (xs : list A) (ys : list B) :
  (∀ x y, P x → Q (g x y)) → Forall P xs → Forall Q (zip_with g xs ys).
Proof.
  intros Hg Hxs. revert ys. induction Hxs; intros [|y ys]; cbn; auto.
Qed.

Lemma filter_label_absent (l : label) cols :
  filter (λ c, c = l) cols = [] ↔ l ∉ cols.
Proof.
  induction cols as [|c cols IH]; [split; [intros _; apply not_elem_of_nil|done]|].
  rewrite filter_cons, not_elem_of_cons.
  case_decide; [naive_solver|]. rewrite IH. naive_solver.
Qed.

Lemma filter_label_NoDup (l : label) cols :
  NoDup cols → l ∈ cols → filter (λ c, c = l) cols = [l].
Proof.
  induction 1 as [|c cols Hc Hnd IH]; intros Hl; [by apply elem_of_nil in Hl|].
  rewrite filter_cons. case_decide as E.
  - subst c. f_equal. by apply filter_label_absent.
  - apply IH. apply elem_of_cons in Hl as [?|?]; congruence.
Qed.

Lemma filter_label_split (l : label) cols :
  length (filter (λ c, c = l) cols) + length (filter (λ c, c ≠ l) cols)
  = length cols.
Proof.
  induction cols as [|c cols IH]; [done|].
  rewrite !filter_cons. repeat case_decide; cbn; try done; lia.
Qed.

Lemma filter_label_elem (l : label) cols :
  filter (λ c, c = l) cols ≠ [] → l ∈ cols.
Proof.
  intros Hf. destruct (decide (l ∈ cols)) as [|Hn]; [done|].
  by apply filter_label_absent in Hn.
Qed.

(** *** Selecting a column *)

Lemma getitem_Series f l s :
  pd.getitem f l = Ok (Series s) ↔
  s = column f l ∧ length (filter (λ c, c = l) (columns f)) = 1.
Proof.
  unfold pd.getitem, column.
  destruct (filter _ (columns f)) as [|c [|c' cs]]; cbn; naive_solver.
Qed.

Lemma getitem_Series_elem f l s :
  pd.getitem f l = Ok (Series s) → l ∈ columns f.
Proof.
  intros [_ Hl]%getitem_Series. apply filter_label_elem.
  by destruct (filter _ _).
Qed.

Lemma getitem_NoDup f l :
  NoDup (columns f) → l ∈ columns f →
  pd.getitem f l = Ok (Series (column f l)).
Proof.
  intros Hnd Hl. apply getitem_Series. split; [done|].
  by rewrite filter_label_NoDup.
Qed.

Lemma column_length f l : length (column f l) = length (rows f).
Proof. unfold column. by rewrite length_fmap. Qed.

(** *** Assigning a column *)

Lemma setitem_columns f l s :
  columns (pd.setitem f l s)
  = if decide (l ∈ columns f) then columns f else columns f ++ [l].
Proof. unfold pd.setitem. by case_decide. Qed.

Lemma setitem_rows_length f l s :
  length s = length (rows f) →
  length (rows (pd.setitem f l s)) = length (rows f).
Proof.
  intros Hlen. unfold pd.setitem.
  case_decide; cbn; rewrite length_zip_with; lia.
Qed.

Lemma setitem_wf f l s : wf f → wf (pd.setitem f l s).
Proof.
  unfold wf, pd.setitem. intros Hwf. case_decide; cbn.
  - eapply Forall_zip_with_l; [|done]. intros r v Hr.
    by apply set_cells_length.
  - eapply Forall_zip_with_l; [|done]. intros r v Hr. cbn in Hr.
    by rewrite !length_app, Hr.
Qed.

Lemma column_setitem_ne f l l' s :
  wf f → l ≠ l' → length s = length (rows f) →
  column (pd.setitem f l' s) l = column f l.
Proof.
  intros Hwf Hne Hlen. unfold column, pd.setitem. case_decide as Hin; cbn.
  - apply fmap_zip_with_keep; [|done]. intros r v _.
    by apply field_set_cells_ne.
  - apply fmap_zip_with_keep; [|done]. intros r v Hr.
    apply (proj1 (Forall_forall _ _) Hwf) in Hr.
    destruct (decide (l ∈ columns f)).
    + by apply field_app_l.
    + rewrite field_app_r by done. cbn. rewrite decide_False by done.
      by rewrite field_absent.
Qed.

Lemma column_setitem_eq f l s :
  wf f → length s = length (rows f) → column (pd.setitem f l s) l = s.
Proof.
  intros Hwf Hlen. unfold column, pd.setitem. case_decide as Hin; cbn.
  - apply fmap_zip_with_new; [|done]. intros r v Hr.
    apply (proj1 (Forall_forall _ _) Hwf) in Hr.
    by apply field_set_cells_eq.
  - apply fmap_zip_with_new; [|done]. intros r v Hr.
    apply (proj1 (Forall_forall _ _) Hwf) in Hr.
    rewrite field_app_r by done. cbn. by rewrite decide_True.
Qed.

Lemma filter_agree {A} (P Q : A → Prop) `{!∀ x, Decision (P x)}
    `{!∀ x, Decision (Q x)} (xs : list A) :
  (∀ x, x ∈ xs → P x ↔ Q x) → filter P xs = filter Q xs.
Proof.
  induction xs as [|x xs IH]; intros Hpq; [done|].
  rewrite !filter_cons, IH by (intros; apply Hpq; by right).
  assert (P x ↔ Q x) by (apply Hpq; by left).
  repeat case_decide; naive_solver.
Qed.

Lemma filter_all {A} (P : A → Prop) `{!∀ x, Decision (P x)} (xs : list A) :
  (∀ x, x ∈ xs → P x) → filter P xs = xs.
Proof.
  induction xs as [|x xs IH]; intros Hp; [done|].
  rewrite filter_cons_True by (apply Hp; by left).
  f_equal. apply IH. intros; apply Hp. by right.
Qed.

Lemma NoDup_counted (ks : list label) :
  (∀ k, k ∈ ks → length (filter (λ c, c = k) ks) = 1) → NoDup ks.
Proof.
  induction ks as [|k ks IH]; intros Hc; constructor.
  - assert (k ∈ k :: ks) as Hk by (by left). apply Hc in Hk.
    rewrite filter_cons_True in Hk by done. cbn in Hk.
    apply filter_label_absent. by destruct (filter _ ks).
  - apply IH. intros k' Hk'.
    assert (k ∈ k :: ks) as Hk by (by left). apply Hc in Hk.
    rewrite filter_cons_True in Hk by done. cbn in Hk.
    assert (k ∉ ks) as Hn
      by (apply filter_label_absent; by destruct (filter _ ks)).
    assert (k' ∈ k :: ks) as Hk2 by (by right). apply Hc in Hk2.
    rewrite filter_cons_False in Hk2; [done|]. by intros ->.
Qed.

(** *** Assigning the columns of a table *)

Lemma setitem_pairs_unique value ks : ∀ f f',
  pd.setitem_pairs f value (zip ks ks) = Ok f' →
  ∀ k, k ∈ ks → length (filter (λ c, c = k) (columns value)) = 1.
Proof.
  induction ks as [|k0 ks IH]; intros f f' Hs k Hk;
    [by apply elem_of_nil in Hk|].
  cbn in Hs. destruct (pd.getitem value k0) as [[s|?]|] eqn:Eg; cbn in Hs;
    try done.
  apply elem_of_cons in Hk as [->|Hk]; [|by eapply IH].
  by apply getitem_Series in Eg as [_ ?].
Qed.

Lemma setitem_pairs_spec value ks : ∀ f f',
  NoDup ks → wf f → length (rows value) = length (rows f) →
  pd.setitem_pairs f value (zip ks ks) = Ok f' →
  wf f' ∧ length (rows f') = length (rows f)
  ∧ columns f' = columns f ++ filter (λ k, k ∉ columns f) ks
  ∧ (∀ l, l ∉ ks → column f' l = column f l)
  ∧ (∀ k, k ∈ ks → column f' k = column value k).
Proof.
  induction ks as [|k ks IH]; intros f f' Hnd Hwf Hlen Hs.
  - cbn in Hs. simplify_eq. rewrite filter_nil, app_nil_r.
    split_and!; try done. intros k Hk. by apply elem_of_nil in Hk.
  - cbn in Hs. destruct (pd.getitem value k) as [[s|?]|] eqn:Eg; cbn in Hs;
      try done.
    apply getitem_Series in Eg as [-> _].
    inversion_clear Hnd as [|?? Hk Hnd'].
    assert (length (column value k) = length (rows f)) as Hcl
      by (by rewrite column_length).
    destruct (IH _ _ Hnd' (setitem_wf _ k _ Hwf)
                (eq_trans Hlen (eq_sym (setitem_rows_length _ k _ Hcl))) Hs)
      as (Hwf' & Hrows & Hcols & Hkeep & Hnew).
    split_and!.
    + done.
    + by rewrite Hrows, setitem_rows_length.
    + rewrite Hcols, setitem_columns, filter_cons.
      destruct (decide (k ∈ columns f)) as [Hin|Hin].
      * rewrite decide_False by naive_solver. done.
      * rewrite decide_True by done. rewrite <-app_assoc. cbn. do 2 f_equal.
        apply filter_agree. intros x Hx. rewrite not_elem_of_app.
        assert (x ≠ k) by (by intros ->). set_solver.
    + intros l Hl. apply not_elem_of_cons in Hl as [? ?].
      rewrite Hkeep by done. by apply column_setitem_ne.
    + intros k' [->|Hk']%elem_of_cons; [|by apply Hnew].
      rewrite Hkeep by done. by apply column_setitem_eq.
Qed.

Lemma setitem_frame_spec f value f' :
  wf f → length (rows value) = length (rows f) →
  pd.setitem_frame f (columns value) value = Ok f' →
  NoDup (columns value)
  ∧ wf f' ∧ length (rows f') = length (rows f)
  ∧ columns f' = columns f ++ filter (λ k, k ∉ columns f) (columns value)
  ∧ (∀ l, l ∉ columns value → column f' l = column f l)
  ∧ (∀ k, k ∈ columns value → column f' k = column value k).
Proof.
  intros Hwf Hlen. unfold pd.setitem_frame. rewrite decide_True by done.
  intros Hs.
  assert (NoDup (columns value)) as Hnd.
  { apply NoDup_counted. by eapply setitem_pairs_unique. }
  split; [done|]. by eapply setitem_pairs_spec.
Qed.

(** *** Keeping some of the columns *)

Lemma select_columns keep f :
  columns (pd.select keep f) = filter (λ c, keep c = true) (columns f).
Proof. apply select_cells_labels. Qed.

Lemma select_rows_length keep f :
  length (rows (pd.select keep f)) = length (rows f).
Proof. cbn. by rewrite length_fmap. Qed.

Lemma select_wf keep f : wf f → wf (pd.select keep f).
Proof.
  unfold wf. cbn. intros Hwf. apply Forall_fmap.
  eapply Forall_impl; [done|]. intros r Hr. by apply select_cells_length.
Qed.

Lemma column_select keep f l :
  keep l = true → column (pd.select keep f) l = column f l.
Proof.
  intros Hk. unfold column. cbn. rewrite <-list_fmap_compose.
  apply list_fmap_ext. intros _ r _. by apply field_select.
Qed.

Lemma drop_columns_Ok f l f' :
  pd.drop_columns f [l] = Ok f' →
  l ∈ columns f ∧ f' = pd.select (λ c, bool_decide (c ∉ [l])) f.
Proof.
  unfold pd.drop_columns. case_decide as Hl; [|done]. intros [= <-].
  split; [|done]. by inversion Hl.
Qed.

(** *** The inner join *)

Lemma add_suffix_not_id c : pd.add_suffix "_x" c ≠ LStr "id".
Proof.
  assert (∀ s : string, s +:+ "_x" ≠ "id") as Hs.
  { intros [|a [|b [|? ?]]]; simpl; intros E; by inversion E. }
  destruct c; cbn; intros [= E]; by apply Hs in E.
Qed.

Lemma merge_rows_elem m c on mg r :
  pd.merge m c on = Ok mg → r ∈ rows mg →
  ∃ lr rr, lr ∈ rows m ∧ rr ∈ rows c
    ∧ pd.field on (columns c) rr = pd.field on (columns m) lr
    ∧ r = lr ++ pd.select_cells (λ c, bool_decide (c ≠ on)) (columns c) rr.
Proof.
  unfold pd.merge. case_decide; [|done]. intros [= <-]. cbn.
  intros (lr & Hr & Hlr)%list_elem_of_bind.
  apply list_elem_of_bind in Hr as (rr & Hr & Hrr).
  apply list_elem_of_filter in Hrr as [Hkey Hrr].
  apply list_elem_of_singleton in Hr. eauto 10.
Qed.

Lemma merge_columns_length m c on mg :
  pd.merge m c on = Ok mg →
  length (columns mg)
  = length (columns m) + length (filter (λ c, c ≠ on) (columns c)).
Proof.
  unfold pd.merge. case_decide; [|done]. intros [= <-]. cbn.
  rewrite length_app, !length_fmap, select_cells_labels. do 2 f_equal.
  apply filter_agree. intros x _. by rewrite bool_decide_eq_true.
Qed.

Lemma merge_wf m c on mg :
  wf m → wf c → pd.merge m c on = Ok mg → wf mg.
Proof.
  intros Hm Hc Hmg. apply Forall_forall. intros r Hr.
  destruct (merge_rows_elem _ _ _ _ _ Hmg Hr) as (lr & rr & Hlr & Hrr & _ & ->).
  apply (proj1 (Forall_forall _ _) Hm) in Hlr.
  apply (proj1 (Forall_forall _ _) Hc) in Hrr.
  revert Hmg. unfold pd.merge. case_decide; [|done]. intros [= <-]. cbn.
  rewrite !length_app, !length_fmap, Hlr. f_equal.
  by apply select_cells_length.
Qed.



(** A column of [left] that [right] does not also have keeps its label. *)
Lemma merge_keeps_label m c on mg l :
  pd.merge m c on = Ok mg → l ∈ columns m → l = on ∨ l ∉ columns c →
  l ∈ columns mg.
Proof.
  unfold pd.merge. case_decide; [|done]. intros [= <-] Hl Hfree. cbn.
  apply elem_of_app. left. apply list_elem_of_fmap. exists l.
  split; [|done]. rewrite bool_decide_eq_false_2; [done|].
  intros [_ Hr]. rewrite select_cells_labels in Hr.
  apply list_elem_of_filter in Hr as [Hne Hr].
  apply bool_decide_eq_true in Hne. naive_solver.
Qed.

(** *** Splitting the categories *)

Lemma split_nonempty sep s : py.split sep s ≠ [].
Proof.
  destruct s as [|c s]; cbn; [done|].
  case_decide; [done|]. by destruct (py.split sep s).
Qed.

(** A piece holds no separator: splitting it again gives the piece. *)
Lemma split_pieces sep s :
  Forall (λ t, py.split sep t = [t]) (py.split sep s).
Proof.
  induction s as [|c s IH]; cbn.
  - by repeat constructor.
  - case_decide as Hc.
    + by constructor.
    + destruct (py.split sep s) as [|t ts] eqn:E;
        [by apply split_nonempty in E|].
      inversion_clear IH as [|?? Ht Hts]. constructor; [|done].
      cbn. rewrite decide_False by done. by rewrite Ht.
Qed.

Lemma expand_row_length width o :
  from_option length 1 o ≤ width → length (pd.expand_row width o) = width.
Proof.
  destruct o as [ts|]; cbn; intros Hw.
  - rewrite length_app, length_fmap, length_replicate. lia.
  - by rewrite length_replicate.
Qed.

Lemma split_expand_width s v :
  v ∈ s → from_option length 1 (pd.str_split ";" v) ≤ pd.split_width ";" s.
Proof.
  intros Hv. apply max_list_elem_of_le.
  apply list_elem_of_fmap. eexists. by split.
Qed.

Lemma split_expand_wf s : wf (pd.str_split_expand ";" s).
Proof.
  unfold wf. cbn. rewrite length_fmap, length_seq.
  apply Forall_fmap, Forall_forall.
  intros v Hv. cbn. by apply expand_row_length, split_expand_width.
Qed.

Lemma split_expand_rows_length s :
  length (rows (pd.str_split_expand ";" s)) = length s.
Proof. cbn. by rewrite length_fmap. Qed.

Lemma split_expand_lookup s i v :
  s !! i = Some v →
  rows (pd.str_split_expand ";" s) !! i
  = Some (pd.expand_row (pd.split_width ";" s) (pd.str_split ";" v)).
Proof. intros Hi. cbn. by rewrite list_lookup_fmap, Hi. Qed.

(** When the names can be read off the first row, that row is a string
    with as many pieces as the table is wide, and each name comes from
    the piece above it. *)
Lemma derived_names_Ok s names :
  derived_names (pd.str_split_expand ";" s) = Ok names →
  ∃ s0 rest, s = VStr s0 :: rest
    ∧ length (py.split ";" s0) = pd.split_width ";" s
    ∧ Forall2 (λ t n, n = LStr (py.drop_last2 t)) (py.split ";" s0) names.
Proof.
  unfold derived_names, pd.iloc0.
  pose proof (split_expand_width s) as Hwidth.
  cbn [rows pd.str_split_expand]. revert Hwidth.
  generalize (pd.split_width ";" s). intros width Hwidth.
  destruct s as [|v rest]; cbn [fmap list_fmap]; [done|].
  cbn [mbind result_bind].
  destruct (pd.str _) as [row|] eqn:Erow; [|done]. cbn [mbind result_bind].
  intros Hnames%mapM_Ok.
  assert (row = pd.expand_row width (pd.str_split ";" v)) as ->.
  { revert Erow. unfold pd.str. by case_match; intros [= <-]. }
  clear Erow.
  assert (VNaN ∉ pd.expand_row width (pd.str_split ";" v)) as Hnan.
  { intros Hin. apply (list_elem_of_fmap_2 (pd.str_split ";")) in Hin.
    apply list_elem_of_lookup in Hin as [i Hi].
    destruct (Forall2_lookup_l _ _ _ _ _ Hnames Hi) as (n & _ & Hn).
    done. }
  assert (from_option length 1 (pd.str_split ";" v) ≤ width) as Hw.
  { apply Hwidth. by left. }
  destruct v as [| |s0|]; cbn in Hnan, Hw, Hnames.
  1,2,4: destruct width; [lia|]; exfalso; apply Hnan; by left.
  exists s0, rest. split; [done|].
  destruct (width - length (py.split ";" s0)) as [|k] eqn:Ek.
  2: { exfalso. apply Hnan. apply elem_of_app. right. by left. }
  split; [lia|]. cbn in Hnames. rewrite app_nil_r in Hnames.
  rewrite <-list_fmap_compose in Hnames.
  apply Forall2_fmap_l in Hnames.
  pose proof (split_pieces ";" s0) as Hp.
  revert Hnames Hp. generalize (py.split ";" s0). intros ts Hn.
  induction Hn as [|t n ts ns Htn _ IH]; intros Hp; constructor.
  - inversion_clear Hp as [|?? Ht _]. cbn in Htn. rewrite Ht in Htn.
    by simplify_eq/=.
  - apply IH. by inversion Hp.
Qed.

(** *** The conversion loop *)

Section conversion.
Context `{NumericText}.

Lemma mapM_parse_length s vals :
  mapM pd.parse_cell s = Ok vals → length vals = length s.
Proof. intros Hm%mapM_Ok. symmetry. by eapply Forall2_length. Qed.

Lemma to_numeric_Series s vals :
  pd.to_numeric (Series s) = Ok vals →
  length vals = length s ∧ is_ok (mapM pd.parse_cell s) = true.
Proof.
  cbn. destruct (mapM pd.parse_cell s) as [ps|] eqn:E; cbn; [|done].
  intros [= <-]. split; [|done].
  apply mapM_parse_length in E. case_match; by rewrite ?length_fmap.
Qed.

Lemma str_replace_length old new s :
  length (pd.str_replace old new s) = length s.
Proof. unfold pd.str_replace. by rewrite length_fmap. Qed.

(** One round rewrites the column it names and nothing else. *)
Lemma convert_column_Ok f l f' :
  wf f → convert_column f l = Ok f' →
  wf f' ∧ columns f' = columns f ∧ length (rows f') = length (rows f)
  ∧ (∀ l', l' ≠ l → column f' l' = column f l')
  ∧ length (filter (λ c, c = l) (columns f)) = 1
  ∧ ∃ pat, add_dash l = Ok pat
      ∧ is_ok (mapM pd.parse_cell
                 (pd.str_replace pat EmptyString (column f l))) = true.
Proof.
  intros Hwf. unfold convert_column.
  destruct (pd.getitem f l) as [x|] eqn:Eg; cbn [mbind result_bind]; [|done].
  destruct (pd.str x) as [s|] eqn:Es; cbn [mbind result_bind]; [|done].
  destruct (add_dash l) as [pat|] eqn:Ep; cbn [mbind result_bind]; [|done].
  destruct x as [s0|]; [|done].
  assert (s = s0) as -> by (revert Es; cbn; by case_match; intros [= <-]).
  apply getitem_Series in Eg as [-> Hone].
  assert (l ∈ columns f) as Hl.
  { apply filter_label_elem. by destruct (filter _ _). }
  set (s1 := pd.str_replace pat EmptyString (column f l)).
  assert (length s1 = length (rows f)) as Hs1.
  { unfold s1. by rewrite str_replace_length, column_length. }
  set (f1 := pd.setitem f l s1).
  assert (columns f1 = columns f) as Hc1.
  { unfold f1. rewrite setitem_columns. by rewrite decide_True. }
  assert (pd.getitem f1 l = Ok (Series s1)) as ->.
  { apply getitem_Series. rewrite Hc1. split; [|done].
    unfold f1. by rewrite column_setitem_eq. }
  cbn [mbind result_bind].
  destruct (pd.to_numeric (Series s1)) as [s2|] eqn:En; cbn [mbind result_bind];
    [|done].
  apply to_numeric_Series in En as [Hs2 Hparse].
  intros [= <-].
  assert (wf f1) as Hwf1 by (by apply setitem_wf).
  assert (length (rows f1) = length (rows f)) as Hr1
    by (by apply setitem_rows_length).
  split_and!.
  - by apply setitem_wf.
  - rewrite setitem_columns, Hc1. by rewrite decide_True.
  - rewrite setitem_rows_length; [done|]. by rewrite Hs2, Hs1.
  - intros l' Hl'. rewrite column_setitem_ne; [|done|done|lia].
    unfold f1. by rewrite column_setitem_ne.
  - done.
  - by exists pat.
Qed.

Lemma convert_columns_Ok cols : ∀ f f',
  wf f → convert_columns f cols = Ok f' →
  wf f' ∧ columns f' = columns f ∧ length (rows f') = length (rows f)
  ∧ (∀ l, l ∉ cols → column f' l = column f l)
  ∧ ∀ l, l ∈ cols →
      length (filter (λ c, c = l) (columns f)) = 1
      ∧ ∃ pat, add_dash l = Ok pat
          ∧ is_ok (mapM pd.parse_cell
                     (pd.str_replace pat EmptyString (column f l))) = true.
Proof.
  induction cols as [|c cols IH]; intros f f' Hwf Hc; cbn in Hc.
  - simplify_eq. split_and!; try done. intros l Hl. by apply elem_of_nil in Hl.
  - destruct (convert_column f c) as [f1|] eqn:E1; cbn in Hc; [|done].
    destruct (convert_column_Ok _ _ _ Hwf E1)
      as (Hwf1 & Hc1 & Hr1 & Hk1 & Hone & Hp).
    destruct (IH _ _ Hwf1 Hc) as (Hwf' & Hc' & Hr' & Hk' & Hall).
    split_and!; try congruence.
    + intros l [? ?]%not_elem_of_cons. rewrite Hk' by done. by apply Hk1.
    + intros l Hl. destruct (decide (l = c)) as [->|Hne]; [done|].
      apply elem_of_cons in Hl as [?|Hl]; [done|].
      destruct (Hall l Hl) as [Hone' Hp']. rewrite Hc1, Hk1 in * by done.
      done.
Qed.

(** The category table of a merged table: its labels are the names read
    off the first row, it has the rows of the merged table, and every
    cell of the split table was read as a number. *)
Lemma category_table_Ok df cats :
  category_table df = Ok cats →
  ∃ s names,
    pd.getitem df (LStr "categories") = Ok (Series s)
    ∧ pd.str (Series s) = Ok s
    ∧ derived_names (pd.str_split_expand ";" s) = Ok names
    ∧ columns cats = names ∧ NoDup names ∧ wf cats
    ∧ length (rows cats) = length (rows df)
    ∧ ∀ l, l ∈ names →
        ∃ pat, add_dash l = Ok pat
          ∧ is_ok (mapM pd.parse_cell
               (pd.str_replace pat EmptyString
                  (pd.field l names <$> rows (pd.str_split_expand ";" s))))
            = true.
Proof.
  unfold category_table, split_categories.
  destruct (pd.getitem df _) as [x|] eqn:Eg; cbn [mbind result_bind]; [|done].
  destruct (pd.str x) as [s|] eqn:Es; cbn [mbind result_bind]; [|done].
  destruct x as [s0|]; [|done].
  assert (s = s0) as -> by (revert Es; cbn; by case_match; intros [= <-]).
  destruct (derived_names _) as [names|] eqn:En; cbn [mbind result_bind];
    [|done].
  unfold pd.set_columns. case_decide as Hlen; cbn [mbind result_bind]; [|done].
  cbn [columns]. intros Hconv.
  set (cats1 := {| columns := names;
                   rows := rows (pd.str_split_expand ";" s0) |}) in *.
  assert (wf cats1) as Hwf1.
  { pose proof (split_expand_wf s0) as Hwf0. unfold wf in *. cbn [columns rows cats1].
    by rewrite Hlen. }
  destruct (convert_columns_Ok _ _ _ Hwf1 Hconv)
    as (Hwf & Hcols & Hrows & _ & Hall).
  exists s0, names. split_and!; try done.
  - apply NoDup_counted. intros k Hk. by apply Hall.
  - rewrite Hrows. cbn [rows cats1].
    rewrite split_expand_rows_length.
    apply getitem_Series in Eg as [-> _]. apply column_length.
  - intros l Hl. by apply Hall.
Qed.

End conversion.

(** *** The expansion as a whole *)

Section expansion.
Context `{NumericText}.

Lemma expanded_stages m c df cats :
  expanded m c = Ok (df, cats) →
  ∃ mg, pd.merge m c (LStr "id") = Ok mg
    ∧ category_table mg = Ok cats
    ∧ LStr "categories" ∈ columns mg
    ∧ pd.setitem_frame (without_raw mg) (columns cats) cats = Ok df.
Proof.
  unfold expanded.
  destruct (pd.merge m c _) as [mg|] eqn:Em; cbn [mbind result_bind]; [|done].
  destruct (category_table mg) as [cats'|] eqn:Ec; cbn [mbind result_bind];
    [|done].
  destruct (pd.drop_columns mg _) as [base|] eqn:Ed; cbn [mbind result_bind];
    [|done].
  apply drop_columns_Ok in Ed as [Hin ->].
  destruct (pd.setitem_frame _ _ _) as [df'|] eqn:Es; cbn [mbind result_bind];
    [|done].
  intros [= <- <-]. by exists mg.
Qed.

Lemma expanded_Ok m c df cats :
  wf m → wf c → expanded m c = Ok (df, cats) →
  ∃ mg s names,
    pd.merge m c (LStr "id") = Ok mg ∧ wf mg
    ∧ merged_categories m c = Ok s
    ∧ length (filter (λ c, c = LStr "categories") (columns mg)) = 1
    ∧ category_names m c = Ok names
    ∧ derived_names (pd.str_split_expand ";" s) = Ok names
    ∧ columns cats = names ∧ NoDup names
    ∧ length (rows cats) = length (rows mg)
    ∧ wf df ∧ length (rows df) = length (rows mg)
    ∧ columns df = columns (without_raw mg)
                   ++ filter (λ n, n ∉ columns (without_raw mg)) names
    ∧ (∀ l, l ∉ names → column df l = column (without_raw mg) l)
    ∧ (∀ l, l ∈ names → column df l = column cats l).
Proof.
  intros Hm Hc (mg & Emg & Ecat & Hraw & Eset)%expanded_stages.
  pose proof (merge_wf _ _ _ _ Hm Hc Emg) as Hmg.
  destruct (category_table_Ok _ _ Ecat)
    as (s & names & Eg & Es & En & Hcols & Hnd & Hwfc & Hrows & _).
  assert (wf (without_raw mg)) as Hbase by (by apply select_wf).
  assert (length (rows cats) = length (rows (without_raw mg))) as Hlen.
  { unfold without_raw. by rewrite select_rows_length. }
  destruct (setitem_frame_spec _ _ _ Hbase Hlen Eset)
    as (_ & Hwf & Hr & Hc' & Hkeep & Hnew).
  unfold without_raw in Hr. rewrite select_rows_length in Hr.
  exists mg, s, names. rewrite Hcols in *.
  split_and!; try done.
  - unfold merged_categories. rewrite Emg. cbn [mbind result_bind].
    rewrite Eg. done.
  - by apply getitem_Series in Eg as [_ ?].
  - unfold category_names, split_categories. rewrite Emg.
    cbn [mbind result_bind]. rewrite Eg. cbn [mbind result_bind].
    rewrite Es. done.
Qed.

Lemma column_without_raw mg l :
  l ≠ LStr "categories" → column (without_raw mg) l = column mg l.
Proof.
  intros Hl. apply column_select. apply bool_decide_eq_true.
  by intros ->%list_elem_of_singleton.
Qed.

Lemma columns_without_raw mg :
  columns (without_raw mg)
  = filter (λ c, c ≠ LStr "categories") (columns mg).
Proof.
  unfold without_raw. rewrite select_columns. apply filter_agree.
  intros x _. rewrite bool_decide_eq_true. by rewrite list_elem_of_singleton.
Qed.

End expansion.
(** ** Running the script *)

Section running.
Context `{NumericText}.

Lemma run_bind {A B} (m : M A) (k : A → M B) st r st' :
  m st = (r, st') →
  (m ≫= k) st = match r with Ok a => k a st' | Err e => (Err e, st') end.
Proof. intros E. unfold mbind, M_bind. rewrite E. by destruct r. Qed.

Lemma run_bind' {A B} (m : M A) (k : A → M B) st p :
  m st = p →
  (m ≫= k) st
  = match p with (Ok a, st') => k a st' | (Err e, st') => (Err e, st') end.
Proof. intros <-. done. Qed.

Lemma run_lift {A B} (r : result A) (k : A → M B) st :
  (lift r ≫= k) st = match r with Ok a => k a st | Err e => (Err e, st) end.
Proof. by destruct r. Qed.

Lemma run_get_frame l st f :
  store st !! l = Some f → get_frame l st = (Ok f, st).
Proof. intros E. unfold get_frame. by rewrite E. Qed.

Lemma run_getitem df l st f :
  store st !! df = Some f → getitem df l st = (pd.getitem f l, st).
Proof.
  intros E. unfold getitem.
  by rewrite (run_bind _ _ _ _ _ (run_get_frame _ _ _ E)).
Qed.

Lemma run_setitem df l s st f :
  store st !! df = Some f →
  setitem df l s st
  = (Ok tt, with_store st (<[df := pd.setitem f l s]> (store st))).
Proof.
  intros E. unfold setitem.
  by rewrite (run_bind _ _ _ _ _ (run_get_frame _ _ _ E)).
Qed.

Lemma store_written st l f g :
  store st !! l = Some f → store (with_store st (<[l := g]> (store st))) !! l = Some g.
Proof.
  intros E. cbn. apply list_lookup_insert_eq. by eapply lookup_lt_Some.
Qed.

Lemma run_convert_column st l f column :
  store st !! l = Some f →
  match convert_column f column with
  | Ok f' => convert_in_place l column st = (Ok tt, with_store st (<[l := f']> (store st)))
  | Err e => (convert_in_place l column st).1 = Err e
  end.
Proof.
  intros E. unfold convert_column, convert_in_place.
  rewrite (run_bind _ _ _ _ _ (run_getitem _ _ _ _ E)).
  destruct (pd.getitem f column) as [x|e]; [|done]. cbn [mbind result_bind].
  rewrite !run_lift.
  destruct (pd.str x) as [s|e]; [|done]. cbn [mbind result_bind].
  rewrite !run_lift.
  destruct (add_dash column) as [pat|e]; [|done]. cbn [mbind result_bind].
  rewrite (run_bind _ _ _ _ _ (run_setitem _ _ _ _ _ E)).
  pose proof (store_written st l f (pd.setitem f column (pd.str_replace pat EmptyString s)) E) as E1.
  rewrite (run_bind _ _ _ _ _ (run_getitem _ _ _ _ E1)).
  destruct (pd.getitem _ column) as [x'|e]; [|done]. cbn [mbind result_bind].
  rewrite !run_lift.
  destruct (pd.to_numeric x') as [s'|e]; [|done]. 
  rewrite (run_setitem _ _ _ _ _ E1). cbn. by rewrite list_insert_insert_eq.
Qed.

Lemma run_convert_columns cols : ∀ st l f,
  store st !! l = Some f →
  match convert_columns f cols with
  | Ok f' => for_each cols (convert_in_place l) st = (Ok tt, with_store st (<[l := f']> (store st)))
  | Err e => (for_each cols (convert_in_place l) st).1 = Err e
  end.
Proof.
  induction cols as [|c cols IH]; intros st l f E; cbn [convert_columns for_each].
  - rewrite list_insert_id by done. by destruct st.
  - pose proof (run_convert_column st l f c E) as Hc.
    destruct (convert_column f c) as [f1|e]; cbn [mbind result_bind].
    + rewrite (run_bind _ _ _ _ _ Hc). cbv beta iota.
      specialize (IH _ l f1 (store_written st l f f1 E)).
      destruct (convert_columns f1 cols) as [f'|e].
      * etrans; [exact IH|]. cbn. by rewrite list_insert_insert_eq.
      * done.
    + unfold mbind, M_bind. destruct (convert_in_place l c st) as [[]?]; simpl in *; congruence.
Qed.

Lemma run_new_frame f st :
  new_frame f st = (Ok (length (store st)), with_store st (store st ++ [f])).
Proof. done. Qed.


Lemma run_merge left right on st l r :
  store st !! left = Some l → store st !! right = Some r →
  merge left right on st
  = match pd.merge l r on with
    | Ok f => (Ok (length (store st)), with_store st (store st ++ [f]))
    | Err e => (Err e, st)
    end.
Proof.
  intros El Er. unfold merge.
  rewrite (run_bind _ _ _ _ _ (run_get_frame _ _ _ El)).
  rewrite (run_bind _ _ _ _ _ (run_get_frame _ _ _ Er)).
  rewrite run_lift. by destruct (pd.merge l r on).
Qed.

Lemma run_iloc0 df st f :
  store st !! df = Some f → iloc0 df st = (pd.iloc0 f, st).
Proof.
  intros E. unfold iloc0.
  by rewrite (run_bind _ _ _ _ _ (run_get_frame _ _ _ E)).
Qed.

Lemma run_get_columns df st f :
  store st !! df = Some f → get_columns df st = (Ok (columns f), st).
Proof.
  intros E. unfold get_columns.
  by rewrite (run_bind _ _ _ _ _ (run_get_frame _ _ _ E)).
Qed.

Lemma run_set_columns df names st f :
  store st !! df = Some f →
  set_columns df names st
  = match pd.set_columns f names with
    | Ok f' => (Ok tt, with_store st (<[df := f']> (store st)))
    | Err e => (Err e, st)
    end.
Proof.
  intros E. unfold set_columns.
  rewrite (run_bind _ _ _ _ _ (run_get_frame _ _ _ E)), run_lift.
  by destruct (pd.set_columns f names).
Qed.

Lemma run_drop_columns df ls st f :
  store st !! df = Some f →
  drop_columns_inplace df ls st
  = match pd.drop_columns f ls with
    | Ok f' => (Ok tt, with_store st (<[df := f']> (store st)))
    | Err e => (Err e, st)
    end.
Proof.
  intros E. unfold drop_columns_inplace.
  rewrite (run_bind _ _ _ _ _ (run_get_frame _ _ _ E)), run_lift.
  by destruct (pd.drop_columns f ls).
Qed.

Lemma run_setitem_frame df keys value st f v :
  store st !! df = Some f → store st !! value = Some v →
  setitem_frame df keys value st
  = match pd.setitem_frame f keys v with
    | Ok f' => (Ok tt, with_store st (<[df := f']> (store st)))
    | Err e => (Err e, st)
    end.
Proof.
  intros E Ev. unfold setitem_frame.
  rewrite (run_bind _ _ _ _ _ (run_get_frame _ _ _ E)).
  rewrite (run_bind _ _ _ _ _ (run_get_frame _ _ _ Ev)), run_lift.
  by destruct (pd.setitem_frame f keys v).
Qed.

Lemma run_drop_duplicates df st f :
  store st !! df = Some f →
  drop_duplicates_inplace df st
  = (Ok tt, with_store st (<[df := pd.drop_duplicates f]> (store st))).
Proof.
  intros E. unfold drop_duplicates_inplace.
  by rewrite (run_bind _ _ _ _ _ (run_get_frame _ _ _ E)).
Qed.


Ltac run_step lem :=
  erewrite run_bind' by (eapply lem; cbn [store with_store]; eauto);
  cbv beta iota; unfold with_store, with_trace;
  cbn [store files dbs sys_argv trace].

Lemma clean_data_run st lm lc m c :
  store st !! lm = Some m → store st !! lc = Some c →
  match expanded m c with
  | Ok (df, cats) =>
      clean_data lm lc st
      = (Ok (length (store st)),
         with_trace (with_store st (store st ++ [pd.drop_duplicates df; cats]))
           (trace st ++ [Printed (removing_message (duplicates df))]))
  | Err e => (clean_data lm lc st).1 = Err e
  end.
Proof.
  intros Em Ec. unfold expanded, clean_data.
  run_step run_merge.
  destruct (pd.merge m c (LStr "id")) as [mg|e]; [|done].
  cbn [mbind result_bind].
  destruct st as [sto fi db av tr]; unfold with_store, with_trace; cbn [store files dbs sys_argv trace] in *.
  set (ldf := length sto).
  assert (Edf : ∀ g tl, (sto ++ g :: tl) !! ldf = Some g).
  { intros g tl. by rewrite lookup_app_r, Nat.sub_diag by done. }
  assert (Ecat : ∀ g g', (sto ++ [g; g']) !! S ldf = Some g').
  { intros g g'. rewrite lookup_app_r by (unfold ldf; lia).
    by replace (S ldf - length sto) with 1 by (unfold ldf; lia). }
  run_step run_getitem.
  unfold category_table, split_categories.
  destruct (pd.getitem mg (LStr "categories")) as [x|e]; [|done].
  cbn [mbind result_bind]. rewrite run_lift.
  destruct (pd.str x) as [s|e]; [|done].
  cbn [mbind result_bind].
  run_step run_new_frame.
  rewrite length_app, Nat.add_1_r; cbn [length].
  rewrite <-app_assoc; cbn [app]. fold ldf.
  unfold derived_names.
  run_step run_iloc0.
  destruct (pd.iloc0 _) as [row|e]; [|done].
  cbn [mbind result_bind]. rewrite run_lift.
  destruct (pd.str (Series row)) as [srow|e]; [|done].
  cbn [mbind result_bind]. rewrite run_lift.
  destruct (mapM category_name _) as [names|e]; [|done].
  cbn [mbind result_bind].
  run_step run_set_columns.
  destruct (pd.set_columns _ names) as [cats1|e]; [|done].
  cbn [mbind result_bind].
  assert (I0 : ∀ g g' tl, <[ldf := g']> (sto ++ g :: tl) = sto ++ g' :: tl).
  { intros. unfold ldf. rewrite insert_app_r_alt, Nat.sub_diag by done. done. }
  assert (I1 : ∀ a g g', <[S ldf := g']> (sto ++ [a; g]) = sto ++ [a; g']).
  { intros. unfold ldf. rewrite insert_app_r_alt by lia.
    by replace (S (length sto) - length sto) with 1 by lia. }
  rewrite I1.
  run_step run_get_columns.
  match goal with |- context [(for_each ?cs _ ≫= _) ?st] =>
    pose proof (run_convert_columns cs st (S ldf) cats1 (Ecat _ _)) as Hloop
  end.
  destruct (convert_columns cats1 (columns cats1)) as [cats|e];
    cbn [mbind result_bind].
  2: { unfold mbind, M_bind. by destruct (for_each _ _ _) as [[]?]; simplify_eq/=. }
  run_step Hloop. rewrite I1.
  run_step run_drop_columns.
  destruct (pd.drop_columns mg _) as [base|e]; [|done].
  cbn [mbind result_bind]. rewrite I0.
  run_step run_get_columns.
  run_step run_setitem_frame.
  destruct (pd.setitem_frame base _ cats) as [df|e]; [|done].
  cbn [mbind result_bind]. rewrite I0.
  run_step run_get_frame.
  unfold print, emit. 
  erewrite run_bind' by reflexivity.
  cbv beta iota; unfold with_store, with_trace;
  cbn [store files dbs sys_argv trace].
  run_step run_drop_duplicates.
  by rewrite I0.
Qed.
End running.

(** ** Duplicate rows *)

Lemma unique_rows_elem seen rs r :
  r ∈ pd.unique_rows seen rs ↔ r ∈ rs ∧ r ∉ seen.
Proof.
  revert seen. induction rs as [|x rs IH]; intros seen; cbn.
  - set_solver.
  - rewrite elem_of_cons. case_decide.
    + rewrite IH. naive_solver.
    + rewrite elem_of_cons, IH, not_elem_of_cons.
      destruct (decide (r = x)); naive_solver.
Qed.

Lemma unique_rows_NoDup seen rs : NoDup (pd.unique_rows seen rs).
Proof.
  revert seen. induction rs as [|x rs IH]; intros seen; cbn.
  - constructor.
  - case_decide; [done|]. constructor; [|done].
    rewrite unique_rows_elem. set_solver.
Qed.

Lemma unique_rows_fixed seen rs :
  NoDup rs → (∀ r, r ∈ rs → r ∉ seen) → pd.unique_rows seen rs = rs.
Proof.
  revert seen. induction rs as [|x rs IH]; intros seen Hnd Hs; cbn; [done|].
  inversion_clear Hnd. rewrite decide_False by set_solver.
  f_equal. apply IH; [done|]. set_solver.
Qed.

Lemma drop_duplicates_idem f :
  pd.drop_duplicates (pd.drop_duplicates f) = pd.drop_duplicates f.
Proof.
  unfold pd.drop_duplicates; cbn. f_equal.
  apply unique_rows_fixed; [apply unique_rows_NoDup|set_solver].
Qed.

Lemma unique_rows_sublist seen rs : sublist (pd.unique_rows seen rs) rs.
Proof.
  revert seen. induction rs as [|x rs IH]; intros seen; cbn; [done|].
  case_decide; [by apply sublist_cons|by apply sublist_skip].
Qed.

(** ** What a returning call leaves behind *)

Section returning.
Context `{NumericText}.

Lemma clean_data_returns st lm lc m c out :
  store st !! lm = Some m → store st !! lc = Some c →
  returned (clean_data lm lc st) = Some out →
  ∃ df cats,
    expanded m c = Ok (df, cats) ∧ out = pd.drop_duplicates df ∧
    clean_data lm lc st
    = (Ok (length (store st)),
       with_trace
         (with_store st (store st ++ [pd.drop_duplicates df; cats]))
         (trace st ++ [Printed (removing_message (duplicates df))])).
Proof.
  intros Em Ec Hret. pose proof (clean_data_run st lm lc m c Em Ec) as Hrun.
  destruct (expanded m c) as [[df cats]|e].
  - exists df, cats. split_and!; [done| |done].
    rewrite Hrun in Hret. cbn in Hret.
    rewrite lookup_app_r, Nat.sub_diag in Hret by done. by simplify_eq/=.
  - destruct (clean_data lm lc st) as [[]?]; by simplify_eq/=.
Qed.

Lemma clean_data_raises st lm lc m c e :
  store st !! lm = Some m → store st !! lc = Some c →
  expanded m c = Err e → (clean_data lm lc st).1 = Err e.
Proof.
  intros Em Ec He. pose proof (clean_data_run st lm lc m c Em Ec) as Hrun.
  by rewrite He in Hrun.
Qed.

(** C6. Removing exact duplicate rows twice leaves as many rows as
    removing them once: the second pass finds nothing to remove. *)
Theorem drop_duplicates_idempotent (f : frame) :
  pd.len (pd.drop_duplicates (pd.drop_duplicates f))
  = pd.len (pd.drop_duplicates f)
  ∧ pd.drop_duplicates (pd.drop_duplicates f) = pd.drop_duplicates f.
Proof. by rewrite drop_duplicates_idem. Qed.

(** C4, as the code has it. In the table [clean_data] returns no two rows
    are equal in every column, and every row of the table before
    deduplication is still there: two rows that agree on the identifier and
    differ elsewhere both stay. *)
Theorem cleaned_rows_distinct st lm lc m c out :
  store st !! lm = Some m → store st !! lc = Some c →
  returned (clean_data lm lc st) = Some out →
  NoDup (rows out)
  ∧ ∃ df cats,
      expanded m c = Ok (df, cats)
      ∧ columns out = columns df
      ∧ (∀ r, r ∈ rows df → r ∈ rows out)
      ∧ (∀ r1 r2, r1 ∈ rows df → r2 ∈ rows df →
           pd.field (LStr "id") (columns df) r1
           = pd.field (LStr "id") (columns df) r2 →
           r1 ≠ r2 →
           ∃ k1 k2, k1 ≠ k2
             ∧ rows out !! k1 = Some r1 ∧ rows out !! k2 = Some r2).
Proof.
  intros Em Ec Hret.
  destruct (clean_data_returns _ _ _ _ _ _ Em Ec Hret)
    as (df & cats & Hex & -> & _).
  split; [apply unique_rows_NoDup|].
  assert (∀ r, r ∈ rows df → r ∈ rows (pd.drop_duplicates df)) as Hall.
  { intros r Hr. cbn. apply unique_rows_elem. split; [done|].
    apply not_elem_of_nil. }
  exists df, cats. split_and!; try done.
  intros r1 r2 H1 H2 _ Hne.
  apply Hall, list_elem_of_lookup in H1 as [k1 Hk1].
  apply Hall, list_elem_of_lookup in H2 as [k2 Hk2].
  exists k1, k2. split_and!; try done. intros ->. congruence.
Qed.

(** C10. A returning [clean_data] leaves the two tables it was given as
    they were: its result is a new object, and every object that existed
    before the call, the two arguments among them, is untouched, as are
    the files and the databases. *)
Theorem clean_data_preserves_inputs st lm lc m c l st' :
  store st !! lm = Some m → store st !! lc = Some c →
  clean_data lm lc st = (Ok l, st') →
  store st' !! lm = Some m ∧ store st' !! lc = Some c
  ∧ l ≠ lm ∧ l ≠ lc
  ∧ (∀ l', l' < length (store st) → store st' !! l' = store st !! l')
  ∧ files st' = files st ∧ dbs st' = dbs st.
Proof.
  intros Em Ec Hrun.
  pose proof (lookup_lt_Some _ _ _ Em) as Hm.
  pose proof (lookup_lt_Some _ _ _ Ec) as Hc.
  pose proof (clean_data_run st lm lc m c Em Ec) as Hrun'.
  destruct (expanded m c) as [[df cats]|e].
  - rewrite Hrun in Hrun'. simplify_eq/=.
    rewrite !lookup_app_l by done. split_and!; try done; try lia.
    intros l' Hl'. by rewrite lookup_app_l.
  - rewrite Hrun in Hrun'. done.
Qed.

(** C7. With any number of arguments other than three after the program
    name, [main] prints the usage text and returns normally; nothing is
    read, cleaned or written: the printed line is the only event, and
    objects, files and databases are as before. *)
Theorem main_usage st :
  length (tail (sys_argv st)) ≠ 3 →
  main st = (Ok tt, with_trace st (trace st ++ [Printed usage])).
Proof.
  intros Hn. unfold main, argv.
  erewrite run_bind' by reflexivity. cbv beta iota.
  rewrite decide_False; [done|].
  destruct (sys_argv st); cbn in *; lia.
Qed.

(** C3, at the flag the code ignores. Whatever [should_replace] is, and
    whatever the database held, [save_data] leaves the given table under
    ['DISASTER_DATA']: an existing table is replaced also when the flag is
    false. *)
Theorem save_data_always_replaces st df f database_filename should_replace :
  store st !! df = Some f →
  let engine := create_engine ("sqlite:///" +:+ database_filename) in
  save_data df database_filename should_replace st
  = (Ok tt,
     with_trace
       (with_dbs st
          (<[engine := <[table_name := f]> (dbs st !!! engine)]> (dbs st)))
       (trace st ++ [WroteSql engine table_name;
                     Printed ("database: " +:+ database_filename
                              +:+ " - tablename " +:+ table_name)])).
Proof.
  intros Ef engine. unfold save_data, to_sql. fold engine.
  assert (pd.to_sql f table_name pd.IfExistsReplace (dbs st !!! engine)
          = Ok (<[table_name := f]> (dbs st !!! engine))) as Hdb.
  { unfold pd.to_sql. by destruct (_ !! table_name). }
  erewrite run_bind'; [|erewrite run_bind' by (by apply run_get_frame);
                        cbv beta iota zeta; rewrite Hdb; reflexivity].
  cbv beta iota. unfold print, emit, with_trace, with_dbs; cbn.
  by rewrite <-app_assoc.
Qed.

End returning.

Section cleaning.
Context `{NumericText}.

(** C1. The flood scenario: for the one-row tables
    [{id:1, message:"flood here"}] and [{id:1, categories:"related-1;offer-0"}]
    [clean_data] returns the one row
    [{id:1, message:"flood here", related:1, offer:0}], whenever the numeric
    reading takes "1" to 1 and "0" to 0. *)
Theorem flood_scenario st lm lc :
  numeric_of_text "1" = Some (NInt 1) →
  numeric_of_text "0" = Some (NInt 0) →
  store st !! lm = Some flood_messages →
  store st !! lc = Some flood_categories →
  returned (clean_data lm lc st) = Some flood_cleaned.
Proof.
  intros H1 H0 Em Ec.
  pose proof (clean_data_run st lm lc _ _ Em Ec) as Hrun.
  assert (expanded flood_messages flood_categories
          = Ok (flood_cleaned,
                {| columns := [LStr "related"; LStr "offer"];
                   rows := [[VInt 1; VInt 0]] |})) as He.
  { unfold numeric_of_text in *. vm_compute. rewrite H1, H0. done. }
  rewrite He in Hrun. rewrite Hrun. cbn.
  by rewrite lookup_app_r, Nat.sub_diag by done.
Qed.


(** C5, as the code has it. The columns of the returned table are those
    of the messages table, those of the categories table less the key and
    the raw column, and one per piece of the categories string of the first
    merged row, provided the categories table has the key column once and
    no derived name is a column of the merged table:
    [#out + 2 = #messages + #categories + N]. *)
Theorem column_count st lm lc m c out mg names s0 rest :
  store st !! lm = Some m → store st !! lc = Some c →
  wf m → wf c →
  length (filter (λ k, k = LStr "id") (columns c)) = 1 →
  returned (clean_data lm lc st) = Some out →
  pd.merge m c (LStr "id") = Ok mg →
  merged_categories m c = Ok (VStr s0 :: rest) →
  category_names m c = Ok names →
  (∀ n, n ∈ names → n ∉ columns mg) →
  length (columns out) + 2
  = length (columns m) + length (columns c) + length (py.split ";" s0).
Proof.
  intros Em Ec Hm Hc Honce Hret Emg Es0 Hnames Hfresh.
  destruct (clean_data_returns _ _ _ _ _ _ Em Ec Hret)
    as (df & cats & Hex & -> & _).
  destruct (expanded_Ok _ _ _ _ Hm Hc Hex)
    as (mg' & s & names' & Emg' & _ & Es & Hraw & Hn' & Hder & _ & _ & _ & _
        & _ & Hcols & _ & _).
  assert (mg' = mg) as -> by congruence.
  assert (names' = names) as -> by congruence.
  assert (s = VStr s0 :: rest) as -> by congruence.
  apply derived_names_Ok in Hder as (s0' & rest' & [= <- <-] & _ & Hf).
  apply Forall2_length in Hf.
  cbn [columns pd.drop_duplicates]. rewrite Hcols, length_app.
  rewrite filter_all; first last.
  { intros n Hn. rewrite columns_without_raw.
    intros [_ ?]%list_elem_of_filter. by eapply Hfresh. }
  rewrite columns_without_raw, <-Hf.
  pose proof (filter_label_split (LStr "categories") (columns mg)) as Hsplit.
  rewrite (merge_columns_length _ _ _ _ Emg) in Hsplit.
  pose proof (filter_label_split (LStr "id") (columns c)) as Hkey.
  lia.
Qed.

(** C8, as the code has it. When the merged table holds, in some row, a
    piece whose text without [<name>-], [<name>] being the name derived
    from the first row's piece at that place, is not read as a number,
    [clean_data] raises. *)
Theorem unreadable_piece_raises st lm lc m c col s0 t0 i j s t :
  store st !! lm = Some m → store st !! lc = Some c →
  merged_categories m c = Ok col →
  col !! 0 = Some (VStr s0) → py.split ";" s0 !! j = Some t0 →
  col !! i = Some (VStr s) → py.split ";" s !! j = Some t →
  numeric_of_text (py.replace (py.drop_last2 t0 +:+ "-") EmptyString t)
  = None →
  raises (clean_data lm lc st).1.
Proof.
  intros Em Ec Ecol H0 Ht0 Hi Ht Hbad.
  destruct (expanded m c) as [[df cats]|e] eqn:Hex;
    [|eexists; by eapply clean_data_raises].
  exfalso.
  apply expanded_stages in Hex as (mg & Emg & Ecat & _ & _).
  destruct (category_table_Ok _ _ Ecat)
    as (col' & names & Eg & Es & En & _ & Hnd & _ & _ & Hall).
  assert (col' = col) as ->.
  { revert Ecol. unfold merged_categories. rewrite Emg.
    cbn [mbind result_bind]. rewrite Eg. cbn [mbind result_bind].
    rewrite Es. congruence. }
  destruct (derived_names_Ok _ _ En) as (s0' & rest & -> & Hw & Hf).
  cbn in H0. simplify_eq.
  destruct (Forall2_lookup_l _ _ _ _ _ Hf Ht0) as (n & Hn & ->).
  destruct (Hall _ (list_elem_of_lookup_2 _ _ _ Hn)) as (pat & [= <-] & Hok).
  pose proof (split_expand_lookup _ _ _ Hi) as Hrow.
  set (row := pd.expand_row _ _) in Hrow.
  assert (pd.field (LStr (py.drop_last2 t0)) names row = VStr t) as Hcell.
  { eapply field_lookup; [done..|]. unfold row. cbn.
    rewrite lookup_app_l by (rewrite length_fmap; by eapply lookup_lt_Some).
    by rewrite list_lookup_fmap, Ht. }
  destruct (mapM_Err_elem pd.parse_cell
              (pd.str_replace (py.drop_last2 t0 +:+ "-") EmptyString
                 (pd.field (LStr (py.drop_last2 t0)) names
                    <$> rows (pd.str_split_expand ";" (VStr s0 :: rest))))
              (VStr (py.replace (py.drop_last2 t0 +:+ "-") EmptyString t))
              ValueError) as [e' He'].
  - unfold pd.str_replace. apply list_elem_of_fmap. exists (VStr t).
    split; [done|]. rewrite <-Hcell. apply list_elem_of_fmap_2.
    by eapply list_elem_of_lookup_2.
  - cbn. unfold numeric_of_text in *. by rewrite Hbad.
  - by rewrite He' in Hok.
Qed.

End cleaning.

Section frame_effect.
Context `{NumericText}.

(** C9. The assignment of the category columns to the merged table (raw
    column dropped) overwrites, where it stands, every column whose label is
    a derived category name, adding no column for it, and leaves the cells
    of every other column as the merge made them; the table has one more
    column only for the names it did not have.  A column of the messages
    table that the categories table does not also have (and the key) is
    such a column under its own label. *)
Theorem expansion_overwrites_collisions st lm lc m c out :
  store st !! lm = Some m → store st !! lc = Some c →
  wf m → wf c →
  returned (clean_data lm lc st) = Some out →
  ∃ mg df cats,
    pd.merge m c (LStr "id") = Ok mg
    ∧ expanded m c = Ok (df, cats)
    ∧ out = pd.drop_duplicates df
    ∧ columns df
      = columns (without_raw mg)
        ++ filter (λ n, n ∉ columns (without_raw mg)) (columns cats)
    ∧ length (rows df) = length (rows mg)
    ∧ (∀ l, l ∈ columns (without_raw mg) → l ∈ columns cats →
         column df l = column cats l
         ∧ filter (λ k, k = l) (columns df)
           = filter (λ k, k = l) (columns (without_raw mg)))
    ∧ (∀ l, l ≠ LStr "categories" → l ∉ columns cats →
         column df l = column mg l)
    ∧ (∀ l, l ∈ columns m → l ≠ LStr "categories" →
         l = LStr "id" ∨ l ∉ columns c → l ∈ columns (without_raw mg)).
Proof.
  intros Em Ec Hm Hc Hret.
  destruct (clean_data_returns _ _ _ _ _ _ Em Ec Hret)
    as (df & cats & Hex & -> & _).
  destruct (expanded_Ok _ _ _ _ Hm Hc Hex)
    as (mg & s & names & Emg & Hmg & _ & _ & _ & _ & Hcats & _ & _ & _
        & Hrows & Hcols & Hkeep & Hnew).
  exists mg, df, cats. rewrite Hcats. split_and!; try done.
  - intros l Hbase Hl. split; [by apply Hnew|].
    rewrite Hcols, filter_app.
    rewrite (proj2 (filter_label_absent l
               (filter (λ n, n ∉ columns (without_raw mg)) names)));
      [by rewrite app_nil_r|].
    by intros [? _]%list_elem_of_filter.
  - intros l Hraw Hl. rewrite Hkeep by done. by apply column_without_raw.
  - intros l Hl Hraw Hfree. rewrite columns_without_raw.
    apply list_elem_of_filter. split; [done|].
    by eapply merge_keeps_label.
Qed.

End frame_effect.

(** ** The scenarios, run *)

Section scenarios.
#[local] Existing Instance decimal_text.

Lemma flood_scenario_runs :
  returned (clean_data 0 1 (fresh_state [flood_messages; flood_categories]))
  = Some flood_cleaned.
Proof. apply (flood_scenario _ 0 1); reflexivity. Defined.



(** C4 as stated fails: two messages under one identifier keep their two
    rows, which differ in the message. *)
Lemma identifier_shared_by_two_rows :
  ∃ out,
    returned (clean_data 0 1 (fresh_state [twin_messages; related_categories]))
    = Some out
    ∧ identifiers out = [VInt 1; VInt 1] ∧ ¬ NoDup (identifiers out).
Proof.
  exists {| columns := [LStr "id"; LStr "message"; LStr "related"];
            rows := [[VInt 1; VStr "flood here"; VInt 1];
                     [VInt 1; VStr "flood there"; VInt 1]] |}.
  split_and!; [by vm_compute|by vm_compute|].
  vm_compute. intros Hnd. inversion_clear Hnd as [|?? Hin _].
  apply Hin. by left.
Qed.

Lemma cleaned_rows_distinct_twins :
  NoDup (rows twin_cleaned)
  ∧ ∃ k1 k2, k1 ≠ k2
      ∧ rows twin_cleaned !! k1 = Some [VInt 1; VStr "flood here"; VInt 1]
      ∧ rows twin_cleaned !! k2 = Some [VInt 1; VStr "flood there"; VInt 1].
Proof.
  destruct (cleaned_rows_distinct
              (fresh_state [twin_messages; related_categories]) 0 1
              twin_messages related_categories twin_cleaned)
    as (Hnd & df & cats & Hex & _ & _ & Hpair);
    [reflexivity|reflexivity|reflexivity|].
  split; [exact Hnd|].
  assert (expanded twin_messages related_categories
          = Ok (twin_cleaned,
                {| columns := [LStr "related"];
                   rows := [[VInt 1]; [VInt 1]] |})) as Hrun
    by (by vm_compute).
  rewrite Hrun in Hex. injection Hex as <- <-.
  apply Hpair.
  - vm_compute. by left.
  - vm_compute. right. by left.
  - reflexivity.
  - discriminate.
Defined.

(** C5 as stated fails on the flood scenario: the formula gives
    2 + (2 - 1) + 2 = 5 columns, the table has 4; the key is a column of
    both tables and of the result once. *)
Lemma column_count_off_by_one :
  returned (clean_data 0 1 (fresh_state [flood_messages; flood_categories]))
  = Some flood_cleaned
  ∧ length (columns flood_cleaned) = 4
  ∧ length (columns flood_messages)
    + (length (columns flood_categories) - 1)
    + length (py.split ";" "related-1;offer-0") = 5.
Proof. by vm_compute. Qed.

Lemma column_count_flood :
  length (columns flood_cleaned) + 2
  = length (columns flood_messages) + length (columns flood_categories)
    + length (py.split ";" "related-1;offer-0").
Proof.
  apply (column_count
           (fresh_state [flood_messages; flood_categories]) 0 1
           flood_messages flood_categories flood_cleaned
           {| columns := [LStr "id"; LStr "message"; LStr "categories"];
              rows := [[VInt 1; VStr "flood here";
                        VStr "related-1;offer-0"]] |}
           [LStr "related"; LStr "offer"] "related-1;offer-0" []).
  - reflexivity.
  - reflexivity.
  - repeat constructor.
  - repeat constructor.
  - reflexivity.
  - vm_compute. reflexivity.
  - vm_compute. reflexivity.
  - vm_compute. reflexivity.
  - vm_compute. reflexivity.
  - apply (proj1 (Forall_forall
                    (λ n, n ∉ [LStr "id"; LStr "message"; LStr "categories"])
                    [LStr "related"; LStr "offer"])).
    compute_done.
Defined.

(** C8 as stated fails: the piece ["related-1.5"] leaves ["1.5"], which is
    no integer, and [clean_data] returns, with 1.5 in the column. *)
Lemma decimal_piece_accepted :
  integer_text (py.replace "related-" EmptyString "related-1.5") = None
  ∧ returned (clean_data 0 1 (fresh_state [two_messages; decimal_categories]))
    = Some decimal_cleaned.
Proof. by vm_compute. Qed.

Lemma unreadable_piece_raises_x :
  raises (clean_data 0 1 (fresh_state [two_messages; unreadable_categories])).1.
Proof.
  apply (unreadable_piece_raises
           (fresh_state [two_messages; unreadable_categories]) 0 1
           two_messages unreadable_categories
           [VStr "related-1"; VStr "related-x"]
           "related-1" "related-1" 1 0 "related-x" "related-x");
    vm_compute; reflexivity.
Defined.

Lemma expansion_overwrites_collisions_id :
  ∃ mg df cats,
    pd.merge flood_messages id_categories (LStr "id") = Ok mg
    ∧ expanded flood_messages id_categories = Ok (df, cats)
    ∧ {| columns := [LStr "id"; LStr "message"];
         rows := [[VInt 7; VStr "flood here"]] |} = pd.drop_duplicates df
    ∧ columns df
      = columns (without_raw mg)
        ++ filter (λ n, n ∉ columns (without_raw mg)) (columns cats)
    ∧ length (rows df) = length (rows mg)
    ∧ (∀ l, l ∈ columns (without_raw mg) → l ∈ columns cats →
         column df l = column cats l
         ∧ filter (λ k, k = l) (columns df)
           = filter (λ k, k = l) (columns (without_raw mg)))
    ∧ (∀ l, l ≠ LStr "categories" → l ∉ columns cats →
         column df l = column mg l)
    ∧ (∀ l, l ∈ columns flood_messages → l ≠ LStr "categories" →
         l = LStr "id" ∨ l ∉ columns id_categories →
         l ∈ columns (without_raw mg)).
Proof.
  apply (expansion_overwrites_collisions
           (fresh_state [flood_messages; id_categories]) 0 1).
  - reflexivity.
  - reflexivity.
  - repeat constructor.
  - repeat constructor.
  - vm_compute. reflexivity.
Defined.

Lemma clean_data_preserves_inputs_flood :
  store (clean_data 0 1 (fresh_state [flood_messages; flood_categories])).2
    !! 0 = Some flood_messages
  ∧ store (clean_data 0 1 (fresh_state [flood_messages; flood_categories])).2
      !! 1 = Some flood_categories.
Proof.
  destruct (clean_data_preserves_inputs
              (fresh_state [flood_messages; flood_categories]) 0 1
              flood_messages flood_categories 2
              (clean_data 0 1
                 (fresh_state [flood_messages; flood_categories])).2)
    as (Hm & Hc & _); [reflexivity|reflexivity|by vm_compute|].
  by split.
Defined.

Lemma main_usage_two_arguments :
  main short_command_line
  = (Ok tt, with_trace short_command_line [Printed usage]).
Proof. apply (main_usage short_command_line). vm_compute. lia. Defined.

(** C3 at [should_replace = False]: the older table is gone and the new
    one stands in its place; the run neither fails nor appends. *)
Lemma save_data_replaces_when_told_not_to :
  save_data 0 "out.db" false stale_state
  = (Ok tt,
     with_trace
       (with_dbs stale_state
          {[ "sqlite:///out.db" := {[ table_name := flood_cleaned ]} ]})
       [WroteSql "sqlite:///out.db" table_name;
        Printed "database: out.db - tablename DISASTER_DATA"]).
Proof.
  rewrite (save_data_always_replaces stale_state 0 flood_cleaned "out.db"
             false); [|reflexivity].
  by vm_compute.
Defined.

End scenarios.

(** * Further properties *)

(** ** Statements that leave files and databases alone *)

Lemma quiet_ret {A} (a : A) : quiet (mret a : M A).
Proof. by intros st. Qed.

Lemma quiet_lift {A} (r : result A) : quiet (lift r).
Proof. by intros st. Qed.

Lemma quiet_bind {A B} (m : M A) (k : A → M B) :
  quiet m → (∀ a, quiet (k a)) → quiet (m ≫= k).
Proof.
  intros Hm Hk st. unfold mbind, M_bind.
  destruct (Hm st) as [Hf Hd]. destruct (m st) as [[a|e] st1]; cbn in *.
  - destruct (Hk a st1) as [Hf' Hd']. split; congruence.
  - done.
Qed.

Lemma quiet_get_frame l : quiet (get_frame l).
Proof. intros st. unfold get_frame. by destruct (store st !! l). Qed.

Lemma quiet_put_frame l f : quiet (put_frame l f).
Proof. by intros st. Qed.

Lemma quiet_new_frame f : quiet (new_frame f).
Proof. by intros st. Qed.

Lemma quiet_print s : quiet (print s).
Proof. by intros st. Qed.

Lemma quiet_for_each {A} (xs : list A) (body : A → M unit) :
  (∀ x, quiet (body x)) → quiet (for_each xs body).
Proof.
  intros Hb. induction xs as [|x xs IH]; cbn [for_each].
  - apply quiet_ret.
  - apply quiet_bind; [apply Hb|]. by intros _.
Qed.

Ltac quiet_steps :=
  repeat first
    [ apply quiet_ret | apply quiet_lift | apply quiet_get_frame
    | apply quiet_put_frame | apply quiet_new_frame | apply quiet_print
    | apply quiet_bind; [|intros ?] ].

Section quiet_script.
Context `{NumericText}.

Lemma quiet_convert_in_place l column : quiet (convert_in_place l column).
Proof. unfold convert_in_place, getitem, setitem. quiet_steps. Qed.

Lemma quiet_clean_data lm lc : quiet (clean_data lm lc).
Proof.
  unfold clean_data, merge, getitem, iloc0, set_columns, get_columns,
    drop_columns_inplace, setitem_frame, drop_duplicates_inplace.
  quiet_steps. apply quiet_for_each. apply quiet_convert_in_place.
Qed.

End quiet_script.

(** ** The loader *)

Lemma run_read_csv path st :
  read_csv path st
  = match files st !! path with
    | Some f =>
        (Ok (length (store st)),
         with_store (with_trace st (trace st ++ [ReadCsv path]))
           (store st ++ [f]))
    | None =>
        (Err FileNotFoundError, with_trace st (trace st ++ [ReadCsv path]))
    end.
Proof. unfold read_csv. by destruct (files st !! path). Qed.

Lemma run_load_data st messages_filepath categories_filepath m c :
  files st !! messages_filepath = Some m →
  files st !! categories_filepath = Some c →
  load_data messages_filepath categories_filepath st
  = (Ok (length (store st), S (length (store st))),
     with_store
       (with_trace st (trace st ++ [ReadCsv messages_filepath;
                                     ReadCsv categories_filepath]))
       (store st ++ [m; c])).
Proof.
  intros Hm Hc. unfold load_data.
  erewrite run_bind' by apply run_read_csv. rewrite Hm. cbv beta iota.
  erewrite run_bind' by apply run_read_csv. cbn [files with_store with_trace].
  rewrite Hc. cbv beta iota. unfold with_store, with_trace; cbn.
  by rewrite length_app, Nat.add_1_r, <-!app_assoc.
Qed.

(** X1. With both files in place [load_data] returns two new, distinct
    objects holding the content of the messages file and of the categories
    file, in that order, also when the two paths are the same; the objects
    that existed, the files and the databases are as before, and the two
    reads, messages first, are the only events. *)
Theorem load_data_returns st messages_filepath categories_filepath m c :
  files st !! messages_filepath = Some m →
  files st !! categories_filepath = Some c →
  ∃ messages categories st',
    load_data messages_filepath categories_filepath st
    = (Ok (messages, categories), st')
    ∧ messages ≠ categories
    ∧ store st' !! messages = Some m ∧ store st' !! categories = Some c
    ∧ (∀ l, l < length (store st) → store st' !! l = store st !! l)
    ∧ files st' = files st ∧ dbs st' = dbs st
    ∧ trace st' = trace st ++ [ReadCsv messages_filepath;
                               ReadCsv categories_filepath].
Proof.
  intros Hm Hc. eexists _, _, _.
  split; [by apply run_load_data|]. cbn.
  split; [lia|].
  split; [by rewrite lookup_app_r, Nat.sub_diag by done|].
  split.
  { rewrite lookup_app_r by lia.
    by replace (S (length (store st)) - length (store st)) with 1 by lia. }
  split; [|done].
  intros l Hl. by rewrite lookup_app_l.
Qed.

(** X2. When the messages file or the categories file is missing
    [load_data] raises [FileNotFoundError]; a missing messages file stops
    the loader before it looks at the categories file.  Files and databases
    are as before. *)
Theorem load_data_missing_file st messages_filepath categories_filepath :
  files st !! messages_filepath = None
  ∨ files st !! categories_filepath = None →
  (load_data messages_filepath categories_filepath st).1
  = Err FileNotFoundError
  ∧ files (load_data messages_filepath categories_filepath st).2 = files st
  ∧ dbs (load_data messages_filepath categories_filepath st).2 = dbs st
  ∧ (files st !! messages_filepath = None →
     trace (load_data messages_filepath categories_filepath st).2
     = trace st ++ [ReadCsv messages_filepath]).
Proof.
  intros Hmiss. unfold load_data.
  erewrite run_bind' by apply run_read_csv.
  destruct (files st !! messages_filepath) as [m|] eqn:Hm; cbv beta iota;
    [|done].
  destruct Hmiss as [?|Hc]; [done|].
  erewrite run_bind' by apply run_read_csv. cbn [files with_store with_trace].
  rewrite Hc. done.
Qed.

(** ** The writer *)

Lemma run_to_sql df name engine mode st f :
  store st !! df = Some f →
  to_sql df name engine mode st
  = let st1 := with_trace st (trace st ++ [WroteSql engine name]) in
    match pd.to_sql f name mode (dbs st !!! engine) with
    | Ok db => (Ok tt, with_dbs st1 (<[engine := db]> (dbs st)))
    | Err e => (Err e, st1)
    end.
Proof.
  intros Ef. unfold to_sql.
  by erewrite run_bind' by (by apply run_get_frame).
Qed.

Lemma run_save_data st df f database_filename should_replace :
  store st !! df = Some f →
  save_data df database_filename should_replace st
  = (Ok tt,
     with_trace
       (with_dbs st
          (<[create_engine ("sqlite:///" +:+ database_filename)
               := <[table_name := f]>
                    (dbs st !!! create_engine
                                  ("sqlite:///" +:+ database_filename))]>
             (dbs st)))
       (trace st
        ++ [WroteSql (create_engine ("sqlite:///" +:+ database_filename))
              table_name;
            Printed ("database: " +:+ database_filename
                     +:+ " - tablename " +:+ table_name)])).
Proof.
  intros Ef. unfold save_data.
  erewrite run_bind' by (by apply run_to_sql). cbv beta iota zeta.
  assert (∀ db : gmap string frame,
            pd.to_sql f table_name pd.IfExistsReplace db
            = Ok (<[table_name := f]> db)) as ->.
  { intros db. unfold pd.to_sql. by destruct (db !! table_name). }
  unfold print, emit, with_trace, with_dbs; cbn. by rewrite <-app_assoc.
Qed.

(** X3. When [save_data] returns for one table and then returns for
    another on the same database file, the database holds under
    ['DISASTER_DATA'] the second table and nothing of the first: it is left
    as a single returning save of the second table would leave it, and its
    other tables are as before the two saves. *)
Theorem save_data_twice st df1 df2 f1 f2 database_filename b1 b2 st1 st2 :
  store st !! df1 = Some f1 → store st !! df2 = Some f2 →
  save_data df1 database_filename b1 st = (Ok tt, st1) →
  save_data df2 database_filename b2 st1 = (Ok tt, st2) →
  let engine := create_engine ("sqlite:///" +:+ database_filename) in
  (dbs st2 !!! engine) !! table_name = Some f2
  ∧ (∀ name, name ≠ table_name →
       (dbs st2 !!! engine) !! name = (dbs st !!! engine) !! name)
  ∧ (∀ st2', save_data df2 database_filename b2 st = (Ok tt, st2') →
       dbs st2 = dbs st2').
Proof.
  intros E1 E2 H1 H2 engine.
  rewrite (run_save_data st df1 f1 _ b1 E1) in H1. injection H1 as <-.
  rewrite (run_save_data _ df2 f2 _ b2) in H2 by done. injection H2 as <-.
  fold engine. cbn.
  rewrite lookup_total_insert_eq, !insert_insert_eq, lookup_total_insert_eq.
  split_and!.
  - by rewrite lookup_insert_eq.
  - intros name Hn. by rewrite !lookup_insert_ne.
  - intros st2' H2'.
    rewrite (run_save_data st df2 f2 _ b2 E2) in H2'. injection H2' as <-.
    cbn. fold engine. by rewrite insert_insert_eq.
Qed.

(** X4. [save_data] touches one table of one database: every other
    database, every other table of the target database, the objects and the
    files are as before. *)
Theorem save_data_frame st df f database_filename should_replace st' :
  store st !! df = Some f →
  save_data df database_filename should_replace st = (Ok tt, st') →
  let engine := create_engine ("sqlite:///" +:+ database_filename) in
  store st' = store st ∧ files st' = files st
  ∧ (∀ url, url ≠ engine → dbs st' !! url = dbs st !! url)
  ∧ (∀ name, name ≠ table_name →
       (dbs st' !!! engine) !! name = (dbs st !!! engine) !! name).
Proof.
  intros Ef Hs engine.
  rewrite (run_save_data st df f _ should_replace Ef) in Hs.
  simplify_eq. fold engine. cbn. split_and!; try done.
  - intros url Hu. by rewrite lookup_insert_ne.
  - intros name Hn. by rewrite lookup_total_insert_eq, lookup_insert_ne.
Qed.

(** ** The command line *)

Section command_line.
Context `{NumericText}.

Lemma run_print s st :
  print s st = (Ok tt, with_trace st (trace st ++ [Printed s])).
Proof. done. Qed.

Lemma run_load_data_missing st mp cp :
  files st !! mp = None ∨ files st !! cp = None →
  ∃ st', load_data mp cp st = (Err FileNotFoundError, st')
    ∧ files st' = files st ∧ dbs st' = dbs st.
Proof.
  intros Hmiss. unfold load_data.
  erewrite run_bind' by apply run_read_csv.
  destruct (files st !! mp) as [m|] eqn:Hm; cbv beta iota;
    [|by eexists].
  destruct Hmiss as [?|Hc]; [done|].
  erewrite run_bind' by apply run_read_csv. cbn [files with_store with_trace].
  rewrite Hc. by eexists.
Qed.

Lemma main_unfold st prog mp cp dp :
  sys_argv st = [prog; mp; cp; dp] →
  main st
  = (_ ← print ("Loading data..." +:+ String "010" ("    MESSAGES: "
                +:+ mp +:+ String "010" ("    CATEGORIES: " +:+ cp)));
     '(messages, categories) ← load_data mp cp;
     _ ← print "Cleaning data...";
     df ← clean_data messages categories;
     _ ← print ("Saving data..." +:+ String "010" ("    DATABASE: " +:+ dp));
     _ ← save_data df dp true;
     print "Cleaned data saved to database!") st.
Proof.
  intros Ha. unfold main, argv.
  erewrite run_bind' by reflexivity. cbv beta iota. by rewrite Ha.
Qed.

(** X5. When a run with three paths, both files in place and tables that
    clean to [out] returns normally, the database named by the third path
    holds [out] under ['DISASTER_DATA']; the files and the other databases
    are as before, and the stages ran in the order load, clean, save. *)
Theorem main_pipeline st prog mp cp dp m c out st' :
  sys_argv st = [prog; mp; cp; dp] →
  files st !! mp = Some m → files st !! cp = Some c →
  cleaned m c = Ok out →
  main st = (Ok tt, st') →
  let engine := create_engine ("sqlite:///" +:+ dp) in
  (dbs st' !!! engine) !! table_name = Some out
  ∧ (∀ url, url ≠ engine → dbs st' !! url = dbs st !! url)
  ∧ files st' = files st
  ∧ ∃ n,
      trace st'
      = trace st
        ++ [Printed ("Loading data..." +:+ String "010" ("    MESSAGES: "
                     +:+ mp +:+ String "010" ("    CATEGORIES: " +:+ cp)));
            ReadCsv mp; ReadCsv cp;
            Printed "Cleaning data...";
            Printed (removing_message n);
            Printed ("Saving data..." +:+ String "010" ("    DATABASE: "
                     +:+ dp));
            WroteSql engine table_name;
            Printed ("database: " +:+ dp +:+ " - tablename " +:+ table_name);
            Printed "Cleaned data saved to database!"].
Proof.
  intros Ha Hm Hc Hout Hmain engine. rewrite (main_unfold _ _ _ _ _ Ha) in Hmain.
  unfold cleaned in Hout.
  destruct (expanded m c) as [[df cats]|] eqn:Hex; cbn in Hout; [|done].
  simplify_eq. revert Hmain.
  erewrite run_bind' by apply run_print. cbv beta iota.
  erewrite run_bind' by (by apply run_load_data). cbv beta iota.
  erewrite run_bind' by apply run_print. cbv beta iota.
  match goal with |- context [(clean_data ?a ?b ≫= _) ?s] =>
    pose proof (clean_data_run s a b m c) as Hrun end.
  rewrite Hex in Hrun.
  erewrite run_bind'; [|apply Hrun; cbn].
  2: by rewrite lookup_app_r, Nat.sub_diag by done.
  2: { rewrite lookup_app_r by lia.
       by replace (S (length (store st)) - length (store st)) with 1 by lia. }
  cbv beta iota.
  erewrite run_bind' by apply run_print. cbv beta iota.
  erewrite run_bind'; [|apply (run_save_data _ _ (pd.drop_duplicates df)); cbn].
  2: { rewrite length_app. cbn.
       rewrite <-app_assoc. cbn.
       rewrite lookup_app_r by lia.
       by replace (length (store st) + 2 - length (store st)) with 2 by lia. }
  cbv beta iota. rewrite run_print. intros [= <-]. fold engine. cbn.
  split_and!; try done.
  - by rewrite lookup_total_insert_eq, lookup_insert_eq.
  - intros url Hu. by rewrite lookup_insert_ne.
  - exists (duplicates df). by rewrite <-!app_assoc.
Qed.

(** X6. The writer is not reached when an earlier stage raises: with three
    paths on the command line, a missing input file makes [main] raise
    [FileNotFoundError], and tables on which [clean_data] raises make it
    raise the same error; in both cases the databases and the files are as
    they were before the run. *)
Theorem main_stops_before_saving st prog mp cp dp :
  sys_argv st = [prog; mp; cp; dp] →
  (files st !! mp = None ∨ files st !! cp = None →
   (main st).1 = Err FileNotFoundError
   ∧ dbs (main st).2 = dbs st ∧ files (main st).2 = files st)
  ∧ (∀ m c e,
       files st !! mp = Some m → files st !! cp = Some c →
       (∀ s messages categories,
          store s !! messages = Some m → store s !! categories = Some c →
          (clean_data messages categories s).1 = Err e) →
       (main st).1 = Err e
       ∧ dbs (main st).2 = dbs st ∧ files (main st).2 = files st).
Proof.
  intros Ha. split.
  - intros Hmiss. rewrite (main_unfold _ _ _ _ _ Ha).
    erewrite run_bind' by apply run_print. cbv beta iota.
    match goal with |- context [(load_data _ _ ≫= _) ?s] =>
      destruct (run_load_data_missing s mp cp Hmiss) as (st' & Hl & Hf & Hd)
    end.
    erewrite run_bind' by apply Hl. cbn in *. done.
  - intros m c e Hm Hc Hraise. rewrite (main_unfold _ _ _ _ _ Ha).
    erewrite run_bind' by apply run_print. cbv beta iota.
    erewrite run_bind' by (by apply run_load_data). cbv beta iota.
    erewrite run_bind' by apply run_print. cbv beta iota.
    unfold mbind, M_bind.
    match goal with |- context [clean_data ?a ?b ?s] =>
      assert ((clean_data a b s).1 = Err e) as Hr;
      [apply Hraise; cbn
      |destruct (quiet_clean_data a b s) as [Hf Hd];
       destruct (clean_data a b s) as [[l|e'] st2]; cbn in Hr, Hf, Hd |- *;
       [done|]; by simplify_eq] end.
    + by rewrite lookup_app_r, Nat.sub_diag by done.
    + rewrite lookup_app_r by lia.
      by replace (S (length (store st)) - length (store st)) with 1 by lia.
Qed.

End command_line.

(** ** What makes the cleaner raise *)

Section cleaner_errors.
Context `{NumericText}.

(** X7. [clean_data] never touches the files or the databases, whether it
    returns or raises, and whatever its two references point to. *)
Theorem clean_data_no_io st lm lc :
  files (clean_data lm lc st).2 = files st
  ∧ dbs (clean_data lm lc st).2 = dbs st.
Proof. apply quiet_clean_data. Qed.

(** X8. When the messages table or the categories table has no column
    [id], [clean_data] raises [KeyError]. *)
Theorem clean_data_missing_key st lm lc m c :
  store st !! lm = Some m → store st !! lc = Some c →
  LStr "id" ∉ columns m ∨ LStr "id" ∉ columns c →
  (clean_data lm lc st).1 = Err KeyError.
Proof.
  intros Em Ec Hkey. apply (clean_data_raises _ _ _ m c); [done..|].
  unfold expanded, pd.merge. rewrite decide_False by naive_solver. done.
Qed.

Lemma add_suffix_not_categories suf c :
  suf = "_x" ∨ suf = "_y" → pd.add_suffix suf c ≠ LStr "categories".
Proof.
  assert (∀ (s : string) a, s +:+ String "_" (String a EmptyString)
                            ≠ "categories") as Hs.
  { intros s a E.
    do 10 (destruct s as [|? s]; simpl in E;
           [by inversion E|injection E as _ E]).
    by destruct s. }
  intros [-> | ->]; destruct c; cbn; intros [= E]; by apply Hs in E.
Qed.

(** X9. The raw column must come from exactly one table: when neither
    table has a column [categories], or both have one (the merge then
    renames them [categories_x] and [categories_y]), [clean_data] raises
    [KeyError]. *)
Theorem clean_data_raw_column_from_one_table st lm lc m c :
  store st !! lm = Some m → store st !! lc = Some c →
  LStr "id" ∈ columns m → LStr "id" ∈ columns c →
  (LStr "categories" ∈ columns m ↔ LStr "categories" ∈ columns c) →
  (clean_data lm lc st).1 = Err KeyError.
Proof.
  intros Em Ec Him Hic Hraw. apply (clean_data_raises _ _ _ m c); [done..|].
  unfold expanded, pd.merge. rewrite decide_True by done.
  cbn [mbind result_bind]. unfold category_table, split_categories, pd.getitem.
  cbn [columns].
  rewrite (proj2 (filter_label_absent (LStr "categories") _)); [done|].
  set (rcols := pd.select_cells _ _ _).
  assert (∀ l, l ∈ rcols ↔ l ≠ LStr "id" ∧ l ∈ columns c) as Hrcols.
  { intros l. unfold rcols. rewrite select_cells_labels, list_elem_of_filter.
    by rewrite bool_decide_eq_true. }
  intros [Hin|Hin]%elem_of_app;
    apply list_elem_of_fmap in Hin as (c0 & Hc0 & Hin);
    case_bool_decide as Hclash.
  - symmetry in Hc0. by apply add_suffix_not_categories in Hc0; [|left].
  - subst c0. apply Hclash. split; [done|]. apply Hrcols.
    split; [done|]. by apply Hraw.
  - symmetry in Hc0. by apply add_suffix_not_categories in Hc0; [|right].
  - subst c0. apply Hclash. apply Hrcols in Hin as [_ Hin].
    split; [by apply Hraw|]. by apply Hrcols.
Qed.

Lemma merged_stage m c mg s :
  pd.merge m c (LStr "id") = Ok mg →
  pd.getitem mg (LStr "categories") = Ok (Series s) →
  pd.str (Series s) = Ok s →
  merged_categories m c = Ok s
  ∧ category_names m c = derived_names (pd.str_split_expand ";" s).
Proof.
  intros Emg Eg Es. unfold merged_categories, category_names, split_categories.
  rewrite Emg. cbn [mbind result_bind]. rewrite Eg. cbn [mbind result_bind].
  by rewrite Es.
Qed.

(** What a successful expansion went through, without assumptions on the
    shape of the tables. *)
Lemma expanded_category_stage m c df cats :
  expanded m c = Ok (df, cats) →
  ∃ mg s0 rest names,
    pd.merge m c (LStr "id") = Ok mg
    ∧ merged_categories m c = Ok (VStr s0 :: rest)
    ∧ column mg (LStr "categories") = VStr s0 :: rest
    ∧ category_names m c = Ok names
    ∧ NoDup names
    ∧ length (py.split ";" s0) = pd.split_width ";" (VStr s0 :: rest).
Proof.
  intros (mg & Emg & Ecat & _ & _)%expanded_stages.
  destruct (category_table_Ok _ _ Ecat)
    as (s & names & Eg & Es & En & _ & Hnd & _ & _ & _).
  destruct (merged_stage _ _ _ _ Emg Eg Es) as [Hmc Hcn].
  destruct (derived_names_Ok _ _ En) as (s0 & rest & -> & Hw & _).
  exists mg, s0, rest, names. split_and!; try done.
  - by apply getitem_Series in Eg as [<- _].
  - by rewrite Hcn.
Qed.

Lemma clean_data_empty_merge st lm lc m c :
  store st !! lm = Some m → store st !! lc = Some c →
  (∀ lr rr, lr ∈ rows m → rr ∈ rows c →
     pd.field (LStr "id") (columns c) rr
     ≠ pd.field (LStr "id") (columns m) lr) →
  raises (clean_data lm lc st).1.
Proof.
  intros Em Ec Hno.
  destruct (expanded m c) as [[df cats]|e] eqn:Hex;
    [|eexists; by eapply clean_data_raises].
  exfalso.
  apply expanded_category_stage in Hex
    as (mg & s0 & rest & names & Emg & _ & Hcol & _).
  unfold column in Hcol.
  destruct (rows mg) as [|r rs] eqn:Hrows; [done|].
  assert (r ∈ rows mg) as Hr by (rewrite Hrows; by left).
  destruct (merge_rows_elem _ _ _ _ _ Emg Hr) as (lr & rr & ? & ? & Hk & _).
  by eapply Hno.
Qed.

(** X10. When the messages table or the categories table has no rows
    [clean_data] raises: the merged table is empty and there is no first
    row to read the names from. *)
Theorem clean_data_empty_table st lm lc m c :
  store st !! lm = Some m → store st !! lc = Some c →
  rows m = [] ∨ rows c = [] →
  raises (clean_data lm lc st).1.
Proof.
  intros Em Ec Hempty. apply (clean_data_empty_merge _ _ _ m c); [done..|].
  intros lr rr Hlr Hrr.
  destruct Hempty as [E|E]; rewrite E in *; by apply elem_of_nil in Hlr || by apply elem_of_nil in Hrr.
Qed.

(** X11. When two pieces of the first merged row derive the same name
    [clean_data] raises: the loop selects by name and finds two columns. *)
Theorem clean_data_repeated_name st lm lc m c names :
  store st !! lm = Some m → store st !! lc = Some c →
  category_names m c = Ok names → ¬ NoDup names →
  raises (clean_data lm lc st).1.
Proof.
  intros Em Ec Hn Hdup.
  destruct (expanded m c) as [[df cats]|e] eqn:Hex;
    [|eexists; by eapply clean_data_raises].
  exfalso.
  apply expanded_category_stage in Hex
    as (mg & s0 & rest & names' & _ & _ & _ & Hn' & Hnd & _).
  rewrite Hn in Hn'. injection Hn' as <-. by apply Hdup.
Qed.

(** X12. The first merged row sets the width: when its categories value is
    no string, or some other row has more pieces than it has,
    [clean_data] raises. *)
Theorem clean_data_first_row_too_short st lm lc m c col v0 :
  store st !! lm = Some m → store st !! lc = Some c →
  merged_categories m c = Ok col → col !! 0 = Some v0 →
  pd.is_str v0 = false
  ∨ (∃ i s, col !! i = Some (VStr s)
            ∧ from_option length 0 (pd.str_split ";" v0)
              < length (py.split ";" s)) →
  raises (clean_data lm lc st).1.
Proof.
  intros Em Ec Hcol H0 Hbad.
  destruct (expanded m c) as [[df cats]|e] eqn:Hex;
    [|eexists; by eapply clean_data_raises].
  exfalso.
  apply expanded_category_stage in Hex
    as (mg & s0 & rest & names & _ & Hcol' & _ & _ & _ & Hw).
  rewrite Hcol in Hcol'. injection Hcol' as ->.
  cbn in H0. injection H0 as <-. cbn in Hbad.
  destruct Hbad as [?|(i & s & Hi & Hlt)]; [done|].
  apply list_elem_of_lookup_2 in Hi.
  pose proof (split_expand_width _ _ Hi) as Hle.
  change (length (py.split ";" s) ≤ pd.split_width ";" (VStr s0 :: rest))
    in Hle.
  lia.
Qed.

End cleaner_errors.

(** ** What the cleaner returns *)

Lemma expand_row_piece width v j :
  j < width → from_option length 1 (pd.str_split ";" v) ≤ width →
  pd.expand_row width (pd.str_split ";" v) !! j = Some (piece j v).
Proof.
  intros Hj Hw. unfold piece.
  destruct (pd.str_split ";" v) as [ts|]; cbn in *.
  - destruct (ts !! j) as [t|] eqn:Et.
    + rewrite lookup_app_l by (rewrite length_fmap; by eapply lookup_lt_Some).
      by rewrite list_lookup_fmap, Et.
    + apply lookup_ge_None in Et.
      rewrite lookup_app_r by (by rewrite length_fmap).
      rewrite length_fmap. apply lookup_replicate_2. lia.
  - by apply lookup_replicate_2.
Qed.

Lemma merge_rows_intro m c on mg lr rr :
  pd.merge m c on = Ok mg → lr ∈ rows m → rr ∈ rows c →
  pd.field on (columns c) rr = pd.field on (columns m) lr →
  lr ++ pd.select_cells (λ c, bool_decide (c ≠ on)) (columns c) rr ∈ rows mg.
Proof.
  unfold pd.merge. case_decide; [|done]. intros [= <-] Hlr Hrr Hk. cbn.
  apply list_elem_of_bind. exists lr. split; [|done].
  apply list_elem_of_bind. exists rr. split; [by left|].
  by apply list_elem_of_filter.
Qed.

Lemma merge_field_id m c mg lr tl :
  wf m → pd.merge m c (LStr "id") = Ok mg → lr ∈ rows m →
  pd.field (LStr "id") (columns mg) (lr ++ tl)
  = pd.field (LStr "id") (columns m) lr.
Proof.
  intros Hm Hmg Hlr.
  apply (proj1 (Forall_forall _ _) Hm) in Hlr.
  revert Hmg. unfold pd.merge. case_decide as Hon; [|done]. intros [= <-]. cbn.
  destruct Hon as [Hl _].
  assert (∀ c0, c0 ∈ columns m →
    (if bool_decide (c0 ∈ columns m ∧ c0 ∈ pd.select_cells
          (λ c1, bool_decide (c1 ≠ LStr "id")) (columns c) (columns c))
     then pd.add_suffix "_x" c0 else c0) = LStr "id" ↔ c0 = LStr "id") as Hrn.
  { intros c0 _. case_bool_decide as Hclash; [|done].
    split; [by intros ?%add_suffix_not_id|]. intros ->.
    destruct Hclash as [_ Hc0]. rewrite select_cells_labels in Hc0.
    apply list_elem_of_filter in Hc0 as [Hc0 _].
    by apply bool_decide_eq_true in Hc0. }
  rewrite field_app_l.
  - by apply field_relabel.
  - apply list_elem_of_fmap. exists (LStr "id"). split; [|done].
    symmetry. by apply Hrn.
  - by rewrite length_fmap.
Qed.

Section conversion_values.
Context `{NumericText}.

Lemma convert_column_value f l f' :
  wf f → convert_column f l = Ok f' →
  ∃ pat, add_dash l = Ok pat
    ∧ pd.to_numeric (Series (pd.str_replace pat EmptyString (column f l)))
      = Ok (column f' l).
Proof.
  intros Hwf. unfold convert_column.
  destruct (pd.getitem f l) as [x|] eqn:Eg; cbn [mbind result_bind]; [|done].
  destruct (pd.str x) as [s|] eqn:Es; cbn [mbind result_bind]; [|done].
  destruct (add_dash l) as [pat|] eqn:Ep; cbn [mbind result_bind]; [|done].
  destruct x as [s0|]; [|done].
  assert (s = s0) as -> by (revert Es; cbn; by case_match; intros [= <-]).
  apply getitem_Series in Eg as [-> Hone].
  set (s1 := pd.str_replace pat EmptyString (column f l)).
  assert (length s1 = length (rows f)) as Hs1.
  { unfold s1. by rewrite str_replace_length, column_length. }
  set (f1 := pd.setitem f l s1).
  assert (columns f1 = columns f) as Hc1.
  { unfold f1. rewrite setitem_columns. rewrite decide_True; [done|].
    apply filter_label_elem. by destruct (filter _ _). }
  assert (pd.getitem f1 l = Ok (Series s1)) as ->.
  { apply getitem_Series. rewrite Hc1. split; [|done].
    unfold f1. by rewrite column_setitem_eq. }
  cbn [mbind result_bind].
  destruct (pd.to_numeric (Series s1)) as [s2|] eqn:En;
    cbn [mbind result_bind]; [|done].
  intros [= <-]. exists pat. split; [done|]. f_equal.
  rewrite column_setitem_eq; [done|by apply setitem_wf|].
  apply to_numeric_Series in En as [-> _].
  unfold f1. by rewrite setitem_rows_length.
Qed.

Lemma convert_columns_values cols : ∀ f f',
  NoDup cols → wf f → convert_columns f cols = Ok f' →
  ∀ l, l ∈ cols →
    ∃ pat, add_dash l = Ok pat
      ∧ pd.to_numeric (Series (pd.str_replace pat EmptyString (column f l)))
        = Ok (column f' l).
Proof.
  induction cols as [|c cols IH]; intros f f' Hnd Hwf Hc l Hl;
    [by apply elem_of_nil in Hl|].
  cbn in Hc. destruct (convert_column f c) as [f1|] eqn:E1; cbn in Hc; [|done].
  inversion_clear Hnd as [|?? Hnot Hnd'].
  destruct (convert_column_Ok _ _ _ Hwf E1) as (Hwf1 & _ & _ & Hk1 & _).
  destruct (decide (l = c)) as [->|Hne].
  - destruct (convert_column_value _ _ _ Hwf E1) as (pat & Hp & Hv).
    exists pat. split; [done|]. rewrite Hv. f_equal. symmetry.
    by apply (convert_columns_Ok cols f1 f').
  - apply elem_of_cons in Hl as [?|Hl]; [done|].
    destruct (IH _ _ Hnd' Hwf1 Hc l Hl) as (pat & Hp & Hv).
    exists pat. split; [done|]. by rewrite <-(Hk1 l Hne).
Qed.

(** Every category column is the numeric reading of the pieces at its
    place, the column's name and a dash taken off. *)
Lemma category_table_values df cats s names :
  category_table df = Ok cats →
  pd.getitem df (LStr "categories") = Ok (Series s) →
  derived_names (pd.str_split_expand ";" s) = Ok names →
  ∀ j n, names !! j = Some (LStr n) →
    pd.to_numeric
      (Series (pd.str_replace (n +:+ "-") EmptyString (piece j <$> s)))
    = Ok (column cats (LStr n)).
Proof.
  intros Hcat Eg En j n Hj.
  destruct (category_table_Ok _ _ Hcat)
    as (s' & names' & Eg' & _ & En' & _ & Hnd & _ & _ & _).
  assert (s' = s) as -> by congruence.
  assert (names' = names) as -> by congruence.
  revert Hcat. unfold category_table, split_categories.
  rewrite Eg. cbn [mbind result_bind].
  destruct (pd.str (Series s)) as [s1|] eqn:Es; cbn [mbind result_bind];
    [|done].
  assert (s1 = s) as -> by (revert Es; cbn; by case_match; intros [= <-]).
  rewrite En. cbn [mbind result_bind].
  unfold pd.set_columns. case_decide as Hlen; cbn [mbind result_bind]; [|done].
  cbn [columns] in *. intros Hconv.
  set (cats1 := {| columns := names;
                   rows := rows (pd.str_split_expand ";" s) |}) in *.
  assert (wf cats1) as Hwf1.
  { pose proof (split_expand_wf s) as Hwf0. unfold wf in *.
    cbn [columns rows cats1]. by rewrite Hlen. }
  destruct (convert_columns_values _ _ _ Hnd Hwf1 Hconv (LStr n)
              (list_elem_of_lookup_2 _ _ _ Hj)) as (pat & [= <-] & Hv).
  rewrite <-Hv. do 3 f_equal. unfold column. cbn [columns rows cats1].
  cbn [pd.str_split_expand rows]. rewrite <-list_fmap_compose.
  apply list_fmap_ext. intros i v Hv'. cbn.
  change (length names = length (LInt <$> seq 0 (pd.split_width ";" s)))
    in Hlen.
  rewrite length_fmap, length_seq in Hlen.
  symmetry. eapply field_lookup; [done..|]. apply expand_row_piece.
  - rewrite <-Hlen. by eapply lookup_lt_Some.
  - apply split_expand_width. by eapply list_elem_of_lookup_2.
Qed.

End conversion_values.

(** The rows that stay stand in the order of their first occurrences. *)
Lemma unique_rows_order rs : ∀ seen k1 k2 r1 r2 i1 i2,
  pd.unique_rows seen rs !! k1 = Some r1 →
  pd.unique_rows seen rs !! k2 = Some r2 →
  first_occurrence rs i1 r1 → first_occurrence rs i2 r2 →
  k1 < k2 → i1 < i2.
Proof.
  induction rs as [|x rs IH]; intros seen k1 k2 r1 r2 i1 i2 H1 H2 F1 F2 Hlt;
    [done|].
  assert (∀ i r, r ≠ x → first_occurrence (x :: rs) i r →
            ∃ i', i = S i' ∧ first_occurrence rs i' r) as Htail.
  { intros [|i] r Hne [Hi Hfirst]; [by simplify_eq/=|].
    exists i. split; [done|]. split; [done|].
    intros j Hj. apply (Hfirst (S j)). lia. }
  assert (∀ i, first_occurrence (x :: rs) i x → i = 0) as Hhead.
  { intros [|i] [_ Hfirst]; [done|]. by destruct (Hfirst 0); [lia|]. }
  cbn in H1, H2. case_decide as Hseen.
  - assert (r1 ≠ x ∧ r2 ≠ x) as [Hn1 Hn2].
    { split; intros ->.
      - apply list_elem_of_lookup_2, unique_rows_elem in H1. naive_solver.
      - apply list_elem_of_lookup_2, unique_rows_elem in H2. naive_solver. }
    destruct (Htail _ _ Hn1 F1) as (i1' & -> & F1').
    destruct (Htail _ _ Hn2 F2) as (i2' & -> & F2').
    enough (i1' < i2') by lia.
    exact (IH seen k1 k2 r1 r2 i1' i2' H1 H2 F1' F2' Hlt).
  - destruct k2 as [|k2]; [lia|]. cbn in H2.
    assert (r2 ≠ x) as Hn2.
    { intros ->. apply list_elem_of_lookup_2, unique_rows_elem in H2.
      destruct H2 as [_ Hx]. apply Hx. by left. }
    destruct (Htail _ _ Hn2 F2) as (i2' & -> & F2').
    destruct k1 as [|k1].
    + cbn in H1. simplify_eq. rewrite (Hhead _ F1). lia.
    + cbn in H1.
      assert (r1 ≠ x) as Hn1.
      { intros ->. apply list_elem_of_lookup_2, unique_rows_elem in H1.
        destruct H1 as [_ Hx]. apply Hx. by left. }
      destruct (Htail _ _ Hn1 F1) as (i1' & -> & F1').
      enough (i1' < i2') by lia.
      apply (IH (x :: seen) k1 k2 r1 r2 i1' i2' H1 H2 F1' F2'). lia.
Qed.

Section cleaner_results.
Context `{NumericText}.

(** X13. The raw column does not survive: every column of the returned
    table is a column of the merged table other than [categories], or a
    derived name; unless a category is itself named [categories], the
    returned table has no column of that name. *)
Theorem raw_column_removed st lm lc m c out mg names :
  store st !! lm = Some m → store st !! lc = Some c →
  wf m → wf c →
  returned (clean_data lm lc st) = Some out →
  pd.merge m c (LStr "id") = Ok mg →
  category_names m c = Ok names →
  (∀ l, l ∈ columns out ↔
        (l ∈ columns mg ∧ l ≠ LStr "categories") ∨ l ∈ names)
  ∧ (LStr "categories" ∉ names → LStr "categories" ∉ columns out).
Proof.
  intros Em Ec Hm Hc Hret Emg Hn.
  destruct (clean_data_returns _ _ _ _ _ _ Em Ec Hret)
    as (df & cats & Hex & -> & _).
  destruct (expanded_Ok _ _ _ _ Hm Hc Hex)
    as (mg' & s & names' & Emg' & _ & _ & _ & Hn' & _ & _ & _ & _ & _ & _
        & Hcols & _).
  assert (mg' = mg) as -> by congruence.
  assert (names' = names) as -> by congruence.
  cbn [columns pd.drop_duplicates]. rewrite Hcols, columns_without_raw.
  assert (∀ l, l ∈ filter (λ c0, c0 ≠ LStr "categories") (columns mg)
               ++ filter (λ n, n ∉ filter (λ c0, c0 ≠ LStr "categories")
                                     (columns mg)) names
             ↔ (l ∈ columns mg ∧ l ≠ LStr "categories") ∨ l ∈ names) as Hiff.
  { intros l. rewrite elem_of_app, !list_elem_of_filter.
    destruct (decide (l ∈ columns mg ∧ l ≠ LStr "categories")); naive_solver. }
  split; [done|]. intros Hraw. rewrite Hiff. naive_solver.
Qed.

(** X14. Each derived column holds the numeric reading of the pieces at its
    place: for the [j]-th derived name [n], the column [n] of the table
    before deduplication is [pd.to_numeric] of the [j]-th pieces of the
    merged categories strings with [n-] removed, a row without a [j]-th
    piece giving a missing value. *)
Theorem category_columns_read st lm lc m c out col names :
  store st !! lm = Some m → store st !! lc = Some c →
  wf m → wf c →
  returned (clean_data lm lc st) = Some out →
  merged_categories m c = Ok col →
  category_names m c = Ok names →
  ∃ df cats,
    expanded m c = Ok (df, cats) ∧ out = pd.drop_duplicates df
    ∧ ∀ j n, names !! j = Some (LStr n) →
        pd.to_numeric
          (Series (pd.str_replace (n +:+ "-") EmptyString (piece j <$> col)))
        = Ok (column df (LStr n)).
Proof.
  intros Em Ec Hm Hc Hret Hcol Hn.
  destruct (clean_data_returns _ _ _ _ _ _ Em Ec Hret)
    as (df & cats & Hex & -> & _).
  exists df, cats. split; [done|]. split; [done|].
  destruct (expanded_Ok _ _ _ _ Hm Hc Hex)
    as (mg & s & names' & Emg & _ & Hs & _ & Hn' & Hder & _ & _ & _ & _ & _
        & _ & _ & Hnew).
  assert (names' = names) as -> by congruence.
  assert (s = col) as -> by congruence.
  apply expanded_stages in Hex as (mg' & Emg' & Hcat & _ & _).
  assert (mg' = mg) as -> by congruence.
  destruct (category_table_Ok _ _ Hcat) as (s' & ? & Eg & Es & _).
  assert (s' = col) as ->.
  { destruct (merged_stage _ _ _ _ Emg Eg Es) as [Hmc _]. congruence. }
  intros j n Hj. rewrite (Hnew (LStr n)) by (by eapply list_elem_of_lookup_2).
  by eapply category_table_values.
Qed.

(** X15. The returned table is the table before deduplication with each
    row kept once, at its first appearance: it has the same columns, no row
    twice, the same rows as a set, and its rows stand in the order in which
    they first occur in the table before deduplication; every row has one
    cell per column. *)
Theorem cleaned_table_rows st lm lc m c out :
  store st !! lm = Some m → store st !! lc = Some c →
  wf m → wf c →
  returned (clean_data lm lc st) = Some out →
  wf out ∧ NoDup (rows out)
  ∧ ∃ df cats,
      expanded m c = Ok (df, cats)
      ∧ columns out = columns df
      ∧ (∀ r, r ∈ rows out ↔ r ∈ rows df)
      ∧ (∀ k1 k2 r1 r2 i1 i2,
           rows out !! k1 = Some r1 → rows out !! k2 = Some r2 →
           first_occurrence (rows df) i1 r1 →
           first_occurrence (rows df) i2 r2 →
           k1 < k2 → i1 < i2).
Proof.
  intros Em Ec Hm Hc Hret.
  destruct (clean_data_returns _ _ _ _ _ _ Em Ec Hret)
    as (df & cats & Hex & -> & _).
  destruct (expanded_Ok _ _ _ _ Hm Hc Hex)
    as (mg & s & names & _ & _ & _ & _ & _ & _ & _ & _ & _ & Hwf & _).
  assert (∀ r, r ∈ rows (pd.drop_duplicates df) ↔ r ∈ rows df) as Hrows.
  { intros r. cbn. rewrite unique_rows_elem.
    split; [by intros [? _]|]. intros Hr. split; [done|].
    apply not_elem_of_nil. }
  split_and!.
  - apply Forall_forall. intros r Hr%Hrows.
    by apply (proj1 (Forall_forall _ _) Hwf).
  - apply unique_rows_NoDup.
  - exists df, cats. split_and!; try done.
    intros k1 k2 r1 r2 i1 i2. apply unique_rows_order.
Qed.

(** X16. The number [clean_data] prints is the number of rows it removed:
    the only event of a returning call is the line
    ["Removing n duplicates in the dataframe."] with [n] the rows of the
    merged table less the rows returned. *)
Theorem duplicates_reported st lm lc m c out mg :
  store st !! lm = Some m → store st !! lc = Some c →
  wf m → wf c →
  returned (clean_data lm lc st) = Some out →
  pd.merge m c (LStr "id") = Ok mg →
  length (rows out) ≤ length (rows mg)
  ∧ trace (clean_data lm lc st).2
    = trace st
      ++ [Printed (removing_message (length (rows mg) - length (rows out)))].
Proof.
  intros Em Ec Hm Hc Hret Emg.
  destruct (clean_data_returns _ _ _ _ _ _ Em Ec Hret)
    as (df & cats & Hex & -> & Hrun).
  destruct (expanded_Ok _ _ _ _ Hm Hc Hex)
    as (mg' & s & names & Emg' & _ & _ & _ & _ & _ & _ & _ & _ & _ & Hrows
        & _).
  assert (mg' = mg) as -> by congruence.
  rewrite Hrun. cbn. rewrite <-Hrows. split; [|done].
  apply sublist_length, unique_rows_sublist.
Qed.

(** X17. The join keeps every shared identifier: when no derived name is
    [id], an identifier of a row of the messages table that is also the
    identifier of a row of the categories table appears in the returned
    table. *)
Theorem shared_identifiers_kept st lm lc m c out names v :
  store st !! lm = Some m → store st !! lc = Some c →
  wf m → wf c →
  returned (clean_data lm lc st) = Some out →
  category_names m c = Ok names → LStr "id" ∉ names →
  v ∈ identifiers m → v ∈ identifiers c → v ∈ identifiers out.
Proof.
  intros Em Ec Hm Hc Hret Hn Hid Hvm Hvc.
  destruct (clean_data_returns _ _ _ _ _ _ Em Ec Hret)
    as (df & cats & Hex & -> & _).
  destruct (expanded_Ok _ _ _ _ Hm Hc Hex)
    as (mg & s & names' & Emg & Hmg & _ & _ & Hn' & _ & _ & _ & _ & _ & _
        & _ & Hkeep & _).
  assert (names' = names) as -> by congruence.
  unfold identifiers, column in Hvm, Hvc.
  apply list_elem_of_fmap in Hvm as (lr & -> & Hlr).
  apply list_elem_of_fmap in Hvc as (rr & Hk & Hrr).
  pose proof (merge_rows_intro _ _ _ _ _ _ Emg Hlr Hrr (eq_sym Hk)) as Hrow.
  assert (pd.field (LStr "id") (columns m) lr ∈ column df (LStr "id")) as Hin.
  { rewrite Hkeep, column_without_raw by done.
    unfold column. apply list_elem_of_fmap. eexists. split; [|exact Hrow].
    symmetry. by apply (merge_field_id m c). }
  unfold column in Hin. apply list_elem_of_fmap in Hin as (r & -> & Hr).
  unfold identifiers, column. cbn [columns rows pd.drop_duplicates].
  apply list_elem_of_fmap_2. apply unique_rows_elem. split; [done|].
  apply not_elem_of_nil.
Qed.

End cleaner_results.

(** ** Names and values of a piece *)

Lemma prefix_append (p v : string) : String.prefix p (p +:+ v) = true.
Proof.
  induction p as [|a p IH]; [by destruct v|].
  change (String a p +:+ v) with (String a (p +:+ v)).
  cbn [String.prefix]. destruct (ascii_dec a a); [exact IH|congruence].
Qed.

Lemma append_length (p v : string) :
  String.length (p +:+ v) = String.length p + String.length v.
Proof. induction p as [|a p IH]; simpl; [done|]. by f_equal. Qed.

Lemma append_assoc (p q r : string) : (p +:+ q) +:+ r = p +:+ (q +:+ r).
Proof.
  induction p as [|a p IH]; [done|]. exact (f_equal (String a) IH).
Qed.

Lemma substring_append (p v : string) :
  String.substring 0 (String.length p) (p +:+ v) = p.
Proof.
  induction p as [|a p IH]; simpl; [by destruct v|]. by f_equal.
Qed.

Lemma replace_from_pending (p old new v : string) :
  py.replace_from (String.length p) old new (p +:+ v)
  = py.replace_from 0 old new v.
Proof.
  induction p as [|a p IH]; simpl; [done|]. exact IH.
Qed.

Lemma replace_at_match (old new v : string) :
  old ≠ EmptyString →
  py.replace old new (old +:+ v) = new +:+ py.replace old new v.
Proof.
  intros Hne. unfold py.replace. destruct old as [|a old]; [done|].
  change (String a old +:+ v) with (String a (old +:+ v)).
  cbn [py.replace_from].
  change (String a (old +:+ v)) with (String a old +:+ v).
  rewrite prefix_append.
  replace (String.length (String a old) - 1) with (String.length old)
    by (simpl; lia).
  by rewrite replace_from_pending.
Qed.

(** X18. A piece of the form [name-d], [d] one character, gives back its
    two parts: [cat[0][:-2]] is [name], and taking [name-] off the piece
    leaves [d] (for an empty name, when [d] is not the dash itself). *)
Theorem piece_name_and_value (name : string) (d : ascii) :
  let piece := name +:+ "-" +:+ String d EmptyString in
  py.drop_last2 piece = name
  ∧ (name ≠ EmptyString ∨ d ≠ "-"%char →
     py.replace (name +:+ "-") EmptyString piece = String d EmptyString).
Proof.
  intros piece. split.
  - unfold py.drop_last2, piece. rewrite append_length.
    replace (String.length name + String.length ("-" +:+ String d EmptyString)
             - 2) with (String.length name) by (simpl; lia).
    apply substring_append.
  - intros Hnd. unfold piece.
    rewrite <-append_assoc.
    rewrite replace_at_match by (by destruct name).
    assert (String.prefix (name +:+ "-") (String d EmptyString) = false)
      as Hp.
    { destruct name as [|a [|b name]]; cbv [String.append String.prefix].
      - destruct (ascii_dec "-" d) as [<-|]; [naive_solver|done].
      - by destruct (ascii_dec a d).
      - by destruct (ascii_dec a d). }
    unfold py.replace. cbn [py.replace_from]. by rewrite Hp.
Qed.

(** ** The further scenarios, run *)

Section further_scenarios.
#[local] Existing Instance decimal_text.

Lemma load_data_returns_both_files :
  ∃ messages categories st',
    load_data "messages.csv" "categories.csv" full_command_line
    = (Ok (messages, categories), st')
    ∧ messages ≠ categories
    ∧ store st' !! messages = Some flood_messages
    ∧ store st' !! categories = Some flood_categories.
Proof.
  destruct (load_data_returns full_command_line "messages.csv"
              "categories.csv" flood_messages flood_categories)
    as (lm & lc & st' & ? & ? & ? & ? & _); [reflexivity..|].
  by exists lm, lc, st'.
Defined.

Lemma load_data_missing_file_no_files :
  (load_data "messages.csv" "categories.csv" short_command_line).1
  = Err FileNotFoundError.
Proof.
  destruct (load_data_missing_file short_command_line "messages.csv"
              "categories.csv") as [Herr _]; [left; reflexivity|].
  exact Herr.
Defined.

Lemma save_data_twice_stale :
  (dbs (save_data 0 "out.db" false
          (save_data 0 "out.db" true stale_state).2).2
   !!! "sqlite:///out.db") !! table_name = Some flood_cleaned.
Proof.
  destruct (save_data_twice stale_state 0 0 flood_cleaned flood_cleaned
              "out.db" true false
              (save_data 0 "out.db" true stale_state).2
              (save_data 0 "out.db" false
                 (save_data 0 "out.db" true stale_state).2).2)
    as (Htable & _);
    [reflexivity|reflexivity|by vm_compute|by vm_compute|].
  exact Htable.
Defined.

Lemma save_data_frame_stale :
  store (save_data 0 "out.db" true stale_state).2 = store stale_state
  ∧ files (save_data 0 "out.db" true stale_state).2 = files stale_state.
Proof.
  destruct (save_data_frame stale_state 0 flood_cleaned "out.db" true
              (save_data 0 "out.db" true stale_state).2)
    as (? & ? & _); [reflexivity|by vm_compute|].
  by split.
Defined.

Lemma main_pipeline_flood :
  (dbs (main full_command_line).2 !!! "sqlite:///out.db") !! table_name
  = Some flood_cleaned.
Proof.
  destruct (main_pipeline full_command_line "process_data.py" "messages.csv"
              "categories.csv" "out.db" flood_messages flood_categories
              flood_cleaned (main full_command_line).2)
    as (Htable & _);
    [reflexivity|reflexivity|reflexivity|by vm_compute|by vm_compute|].
  exact Htable.
Defined.

Lemma main_stops_before_saving_unreadable :
  (main unreadable_command_line).1 = Err ValueError
  ∧ dbs (main unreadable_command_line).2 = dbs unreadable_command_line
  ∧ files (main unreadable_command_line).2 = files unreadable_command_line.
Proof.
  destruct (main_stops_before_saving unreadable_command_line
              "process_data.py" "messages.csv" "categories.csv" "out.db")
    as [_ Hclean]; [reflexivity|].
  apply (Hclean two_messages unreadable_categories ValueError);
    [reflexivity|reflexivity|].
  intros s messages categories Hm Hc.
  apply (clean_data_raises s messages categories two_messages
           unreadable_categories); [exact Hm|exact Hc|by vm_compute].
Defined.

Lemma clean_data_missing_key_keyless :
  (clean_data 0 1 (fresh_state [keyless_messages; flood_categories])).1
  = Err KeyError.
Proof.
  apply (clean_data_missing_key _ 0 1 keyless_messages flood_categories);
    [reflexivity|reflexivity|].
  left. compute_done.
Defined.

Lemma clean_data_raw_column_from_one_table_none :
  (clean_data 0 1 (fresh_state [flood_messages; flood_messages])).1
  = Err KeyError.
Proof.
  apply (clean_data_raw_column_from_one_table _ 0 1 flood_messages
           flood_messages);
    [reflexivity|reflexivity|compute_done|compute_done|done].
Defined.

Lemma clean_data_empty_table_messages :
  raises (clean_data 0 1 (fresh_state [empty_messages; flood_categories])).1.
Proof.
  apply (clean_data_empty_table _ 0 1 empty_messages flood_categories);
    [reflexivity|reflexivity|].
  left. reflexivity.
Defined.

Lemma clean_data_repeated_name_related :
  raises
    (clean_data 0 1 (fresh_state [flood_messages; repeated_categories])).1.
Proof.
  apply (clean_data_repeated_name _ 0 1 flood_messages repeated_categories
           [LStr "related"; LStr "related"]);
    [reflexivity|reflexivity|by vm_compute|compute_done].
Defined.

Lemma clean_data_first_row_too_short_ragged :
  raises (clean_data 0 1 (fresh_state [two_messages; ragged_categories])).1.
Proof.
  apply (clean_data_first_row_too_short _ 0 1 two_messages ragged_categories
           [VStr "related-1"; VStr "related-1;offer-0"] (VStr "related-1"));
    [reflexivity|reflexivity|by vm_compute|reflexivity|].
  right. exists 1, "related-1;offer-0". split; [reflexivity|].
  vm_compute. lia.
Defined.

Lemma raw_column_removed_flood : LStr "categories" ∉ columns flood_cleaned.
Proof.
  destruct (raw_column_removed
              (fresh_state [flood_messages; flood_categories]) 0 1
              flood_messages flood_categories flood_cleaned
              {| columns := [LStr "id"; LStr "message"; LStr "categories"];
                 rows := [[VInt 1; VStr "flood here";
                           VStr "related-1;offer-0"]] |}
              [LStr "related"; LStr "offer"]) as [_ Hraw].
  - reflexivity.
  - reflexivity.
  - repeat constructor.
  - repeat constructor.
  - by vm_compute.
  - by vm_compute.
  - by vm_compute.
  - apply Hraw. compute_done.
Defined.

Lemma category_columns_read_flood :
  ∃ df cats,
    expanded flood_messages flood_categories = Ok (df, cats)
    ∧ flood_cleaned = pd.drop_duplicates df
    ∧ ∀ j n, [LStr "related"; LStr "offer"] !! j = Some (LStr n) →
        pd.to_numeric
          (Series (pd.str_replace (n +:+ "-") EmptyString
                     (piece j <$> [VStr "related-1;offer-0"])))
        = Ok (column df (LStr n)).
Proof.
  apply (category_columns_read
           (fresh_state [flood_messages; flood_categories]) 0 1
           flood_messages flood_categories flood_cleaned).
  - reflexivity.
  - reflexivity.
  - repeat constructor.
  - repeat constructor.
  - by vm_compute.
  - by vm_compute.
  - by vm_compute.
Defined.

Lemma cleaned_table_rows_repeated :
  wf flood_cleaned ∧ NoDup (rows flood_cleaned).
Proof.
  destruct (cleaned_table_rows
              (fresh_state [repeated_messages; flood_categories]) 0 1
              repeated_messages flood_categories flood_cleaned)
    as (Hwf & Hnd & _).
  - reflexivity.
  - reflexivity.
  - repeat constructor.
  - repeat constructor.
  - by vm_compute.
  - by split.
Defined.

Lemma duplicates_reported_repeated :
  trace (clean_data 0 1 (fresh_state [repeated_messages; flood_categories])).2
  = [Printed "Removing 1 duplicates in the dataframe."].
Proof.
  destruct (duplicates_reported
              (fresh_state [repeated_messages; flood_categories]) 0 1
              repeated_messages flood_categories flood_cleaned
              {| columns := [LStr "id"; LStr "message"; LStr "categories"];
                 rows := [[VInt 1; VStr "flood here";
                           VStr "related-1;offer-0"];
                          [VInt 1; VStr "flood here";
                           VStr "related-1;offer-0"]] |})
    as [_ Htrace].
  - reflexivity.
  - reflexivity.
  - repeat constructor.
  - repeat constructor.
  - by vm_compute.
  - by vm_compute.
  - exact Htrace.
Defined.

Lemma shared_identifiers_kept_flood : VInt 1 ∈ identifiers flood_cleaned.
Proof.
  apply (shared_identifiers_kept
           (fresh_state [flood_messages; flood_categories]) 0 1
           flood_messages flood_categories flood_cleaned
           [LStr "related"; LStr "offer"] (VInt 1)).
  - reflexivity.
  - reflexivity.
  - repeat constructor.
  - repeat constructor.
  - by vm_compute.
  - by vm_compute.
  - compute_done.
  - vm_compute. by left.
  - vm_compute. by left.
Defined.

Lemma piece_name_and_value_related :
  py.drop_last2 "related-1" = "related"
  ∧ py.replace "related-" EmptyString "related-1" = "1".
Proof.
  destruct (piece_name_and_value "related" "1") as [Hname Hvalue].
  split; [exact Hname|]. apply Hvalue. by left.
Defined.

End further_scenarios.
